(** * The Redux state core of the to-do list app (src/app/index.jsx)

    A shallow embedding of the two slices built with [createSlice]
    ([ui] and [todos]), of the store that [configureStore] combines them
    into, and of the two selectors the cards compute, followed by the
    properties proved about them.

    Reducers are written with Immer in the source: they assign to a draft
    and the library returns the next immutable state.  Each case reducer is
    therefore a function from the current state to the next one. *)

From stdpp Require Import base numbers strings list pretty sorting.

(** ** Data *)

(** An entry of [state.todos.items], as [prepare] (lines 40-51) builds it. *)
Module TodoItem.
Record t : Type := mk {
  id : string;
  title : string;
  done : bool;
  createdAt : Z;
  dateTime : string
}.

(** [t.done = !t.done] (line 55): the same object with its flag flipped. *)
Definition flip_done (x : t) : t :=
  mk (id x) (title x) (negb (done x)) (createdAt x) (dateTime x).
End TodoItem.

(** State of the [ui] slice; [initialState] of line 15. *)
Module UiState.
Record t : Type := mk {
  darkMode : bool;
  showBanner : bool;
  bannerMessage : string
}.

Definition initialState : t := mk false false "".
End UiState.

(** State of the [todos] slice; [initialState] of line 34. *)
Module TodosState.
Record t : Type := mk { items : list TodoItem.t }.

Definition initialState : t := mk [].
End TodosState.

(** ** What the code reads from outside

    [prepare] calls [nanoid()], [new Date()] and [Date.now()].  The
    environment fixes what the k-th call of each returns, and the locale
    rendering of an instant; the world counts the calls made so far. *)
Record Env : Type := {
  nanoid : nat → string;
  Date_now : nat → Z;
  toLocaleString : Z → string
}.

Record World : Type := { ids_drawn : nat; clock_reads : nat }.

(** The generator never returns the same id twice. *)
Definition fresh_ids (env : Env) : Prop :=
  ∀ i j, nanoid env i = nanoid env j → i = j.

(** ** The array methods the reducers call *)

Module JsArray.
(** [Array.prototype.filter]: walk the array from index 0 upwards and
    append each element the callback accepts to a new array. *)
Definition filter {A : Type} (callback : A → bool) (arr : list A) : list A :=
  fold_left (λ kept x, if callback x then kept ++ [x] else kept) arr [].

(** [Array.prototype.find]: the first element the callback accepts.  On
    an Immer draft the result is a draft of that element, so a write to
    it lands at the element's index; the index is returned with it.
    [None] is JavaScript's [undefined]. *)
Definition find {A : Type} (P : A → Prop) `{!∀ x, Decision (P x)}
    (arr : list A) : option (nat * A) :=
  list_find P arr.

(** [Array.prototype.unshift] with one argument. *)
Definition unshift {A : Type} (x : A) (arr : list A) : list A := x :: arr.
End JsArray.

(** ** Actions and what a dispatch can come to *)

(** The payloads the action creators of this file build: none, a text
    (a banner message or an id) or a to-do entry. *)
Inductive Payload : Type :=
| PUndefined
| PString (s : string)
| PTodo (item : TodoItem.t).

(** An action object; [type] is [None] when the object has no such field. *)
Record Action : Type := { type : option string; payload : Payload }.

Inductive JsError : Type :=
| ActionTypeMissing.

(** [Next s]: the call returned and [s] is the state after it.
    [Thrown e]: the call threw and the state stays as it was.
    [Untyped]: the payload has a shape that no action creator of the file
    gives this action; the typed state records do not cover what
    JavaScript stores then. *)
Inductive Outcome (S : Type) : Type :=
| Next (s : S)
| Thrown (e : JsError)
| Untyped.
Arguments Next {S} s.
Arguments Thrown {S} e.
Arguments Untyped {S}.

#[export] Instance Outcome_ret : MRet Outcome := λ _ s, Next s.
#[export] Instance Outcome_bind : MBind Outcome := λ _ _ k o,
  match o with
  | Next s => k s
  | Thrown e => Thrown e
  | Untyped => Untyped
  end.

(** ** [createSlice]

    [createSlice], [configureStore] and [dispatch] come from Redux Toolkit,
    not from this repository; they are written out here as the library
    documents them, for the two slices the source declares. *)

(** A case reducer, by the payload it reads. *)
Inductive CaseReducer (S : Type) : Type :=
| OnNothing (r : S → S)
| OnText (r : S → string → S)
| OnItem (r : S → TodoItem.t → S).
Arguments OnNothing {S} r.
Arguments OnText {S} r.
Arguments OnItem {S} r.

Record Slice (S : Type) : Type := {
  sliceName : string;
  sliceInitialState : S;
  caseReducers : list (string * CaseReducer S)
}.
Arguments sliceName {S} _.
Arguments sliceInitialState {S} _.
Arguments caseReducers {S} _.

(** The action type of a case reducer: slice name, a slash, its key. *)
Definition actionType (slice key : string) : string := slice +:+ "/" +:+ key.

Definition applyCase {S : Type} (cr : CaseReducer S) (state : S) (p : Payload)
    : Outcome S :=
  match cr, p with
  | OnNothing r, _ => Next (r state)
  | OnText r, PString s => Next (r state s)
  | OnItem r, PTodo item => Next (r state item)
  | _, _ => Untyped
  end.

Definition caseReducerFor {S : Type} (sl : Slice S) (ty : string)
    : option (CaseReducer S) :=
  '(_, (_, cr)) ← list_find (λ kv, actionType (sliceName sl) kv.1 = ty)
                            (caseReducers sl);
  Some cr.

(** The reducer of a slice: the case reducer registered for the action's
    type runs; for any other type the state is returned as it is. *)
Definition sliceReducer {S : Type} (sl : Slice S) (state : S) (ty : string)
    (p : Payload) : Outcome S :=
  match caseReducerFor sl ty with
  | Some cr => applyCase cr state p
  | None => Next state
  end.

(** ** The [ui] slice (lines 13-29) *)

Module uiSlice.
Import UiState.

Definition name : string := "ui".

Definition toggleDarkMode (state : UiState.t) : UiState.t :=
  UiState.mk (negb (darkMode state)) (UiState.showBanner state) (bannerMessage state).

Definition showBanner (state : UiState.t) (payload : string) : UiState.t :=
  UiState.mk (darkMode state) true payload.

Definition dismissBanner (state : UiState.t) : UiState.t :=
  UiState.mk (darkMode state) false "".

Definition slice : Slice UiState.t := {|
  sliceName := name;
  sliceInitialState := UiState.initialState;
  caseReducers := [
    ("toggleDarkMode", OnNothing toggleDarkMode);
    ("showBanner", OnText showBanner);
    ("dismissBanner", OnNothing dismissBanner)
  ]
|}.
End uiSlice.

(** ** The [todos] slice (lines 32-64) *)

Module todosSlice.
Import TodosState.

Definition name : string := "todos".

(** The [prepare] half of [addTodo] (lines 40-51): [new Date()] first,
    then the fields in the order they are written. *)
Definition prepare (env : Env) (w : World) (title : string) : World * TodoItem.t :=
  let now := Date_now env (clock_reads w) in
  ({| ids_drawn := S (ids_drawn w); clock_reads := S (S (clock_reads w)) |},
   {| TodoItem.id := nanoid env (ids_drawn w);
      TodoItem.title := title;
      TodoItem.done := false;
      TodoItem.createdAt := Date_now env (S (clock_reads w));
      TodoItem.dateTime := toLocaleString env now |}).

(** The [reducer] half of [addTodo] (lines 37-39). *)
Definition addTodo (state : TodosState.t) (payload : TodoItem.t) : TodosState.t :=
  TodosState.mk (JsArray.unshift payload (items state)).

(** Lines 53-56: [if (t)] is the [Some] branch, an object being truthy. *)
Definition toggleTodo (state : TodosState.t) (payload : string) : TodosState.t :=
  match JsArray.find (λ x, TodoItem.id x = payload) (items state) with
  | Some (i, t) => TodosState.mk (<[i := TodoItem.flip_done t]> (items state))
  | None => state
  end.

(** Lines 57-59. *)
Definition removeTodo (state : TodosState.t) (payload : string) : TodosState.t :=
  TodosState.mk
    (JsArray.filter (λ x, bool_decide (TodoItem.id x ≠ payload)) (items state)).

(** Lines 60-62. *)
Definition clearTodos (state : TodosState.t) : TodosState.t :=
  TodosState.mk (JsArray.filter (λ item, TodoItem.done item) (items state)).

Definition slice : Slice TodosState.t := {|
  sliceName := name;
  sliceInitialState := TodosState.initialState;
  caseReducers := [
    ("addTodo", OnItem addTodo);
    ("toggleTodo", OnText toggleTodo);
    ("removeTodo", OnText removeTodo);
    ("clearTodos", OnNothing clearTodos)
  ]
|}.
End todosSlice.

(** ** The action creators (lines 66-67) *)

Module actions.
Definition toggleDarkMode : Action :=
  {| type := Some (actionType uiSlice.name "toggleDarkMode"); payload := PUndefined |}.

Definition showBanner (message : string) : Action :=
  {| type := Some (actionType uiSlice.name "showBanner"); payload := PString message |}.

Definition dismissBanner : Action :=
  {| type := Some (actionType uiSlice.name "dismissBanner"); payload := PUndefined |}.

(** The only creator with a [prepare] callback. *)
Definition addTodo (env : Env) (w : World) (title : string) : World * Action :=
  let '(w', item) := todosSlice.prepare env w title in
  (w', {| type := Some (actionType todosSlice.name "addTodo"); payload := PTodo item |}).

Definition toggleTodo (id : string) : Action :=
  {| type := Some (actionType todosSlice.name "toggleTodo"); payload := PString id |}.

Definition removeTodo (id : string) : Action :=
  {| type := Some (actionType todosSlice.name "removeTodo"); payload := PString id |}.

Definition clearTodos : Action :=
  {| type := Some (actionType todosSlice.name "clearTodos"); payload := PUndefined |}.
End actions.

(** The action types the two slices handle. *)
Definition handledTypes {S : Type} (sl : Slice S) : list string :=
  (λ kv, actionType (sliceName sl) kv.1) <$> caseReducers sl.

Definition knownTypes : list string :=
  handledTypes uiSlice.slice ++ handledTypes todosSlice.slice.

(** ** The store (lines 69-74) *)

(** The state tree: one field per slice, each starting from its slice's
    [initialState]. *)
Module RootState.
Record t : Type := mk { ui : UiState.t; todos : TodosState.t }.

Definition initialState : t :=
  mk (sliceInitialState uiSlice.slice) (sliceInitialState todosSlice.slice).
End RootState.

(** The combined reducer hands the action to each slice in turn. *)
Definition rootReducer (state : RootState.t) (ty : string) (p : Payload)
    : Outcome RootState.t :=
  u ← sliceReducer uiSlice.slice (RootState.ui state) ty p;
  t ← sliceReducer todosSlice.slice (RootState.todos state) ty p;
  mret (RootState.mk u t).

(** [store.dispatch]: Redux throws on an action without a [type] before any
    reducer runs. *)
Definition dispatch (state : RootState.t) (action : Action) : Outcome RootState.t :=
  match type action with
  | None => Thrown ActionTypeMissing
  | Some ty => rootReducer state ty (payload action)
  end.

(** ** What the view dispatches *)

(** One constructor per [dispatch(creator(...))] call of the components. *)
Inductive Intent : Type :=
| DoToggleDarkMode
| DoShowBanner (message : string)
| DoDismissBanner
| DoAddTodo (title : string)
| DoToggleTodo (id : string)
| DoRemoveTodo (id : string)
| DoClearTodos.

Definition build (env : Env) (w : World) (i : Intent) : World * Action :=
  match i with
  | DoToggleDarkMode => (w, actions.toggleDarkMode)
  | DoShowBanner message => (w, actions.showBanner message)
  | DoDismissBanner => (w, actions.dismissBanner)
  | DoAddTodo title => actions.addTodo env w title
  | DoToggleTodo id => (w, actions.toggleTodo id)
  | DoRemoveTodo id => (w, actions.removeTodo id)
  | DoClearTodos => (w, actions.clearTodos)
  end.

Definition perform (env : Env) (w : World) (state : RootState.t) (i : Intent)
    : World * Outcome RootState.t :=
  let '(w', a) := build env w i in (w', dispatch state a).

(** Dispatches run one after the other, each to completion. *)
Fixpoint run (env : Env) (w : World) (state : RootState.t) (intents : list Intent)
    : World * Outcome RootState.t :=
  match intents with
  | [] => (w, Next state)
  | i :: rest =>
      match perform env w state i with
      | (w', Next state') => run env w' state' rest
      | stopped => stopped
      end
  end.

(** ** The selectors of the two cards (lines 192 and 247) *)

Definition activeTasks (todos : list TodoItem.t) : list TodoItem.t :=
  JsArray.filter (λ item, negb (TodoItem.done item)) todos.

Definition finishedTasks (todos : list TodoItem.t) : list TodoItem.t :=
  JsArray.filter (λ item, TodoItem.done item) todos.

(** ** Predicates of the properties *)

Definition ids (state : TodosState.t) : list string :=
  TodoItem.id <$> TodosState.items state.

(** A hidden banner carries no message. *)
Definition bannerInvariant (state : UiState.t) : Prop :=
  UiState.showBanner state = false → UiState.bannerMessage state = "".

(** The call threw instead of returning a next state. *)
Definition rejected {S : Type} (o : Outcome S) : Prop := ∃ e, o = Thrown e.

(** Every id in the list came out of the generator in an earlier call. *)
Definition drawnBefore (env : Env) (w : World) (s : TodosState.t) : Prop :=
  ∀ id, id ∈ ids s → ∃ k, k < ids_drawn w ∧ id = nanoid env k.

(** States of the [ui] slice its three transitions lead to. *)
Inductive uiReachable : UiState.t → Prop :=
| ui_initial : uiReachable UiState.initialState
| ui_toggleDarkMode s : uiReachable s → uiReachable (uiSlice.toggleDarkMode s)
| ui_showBanner s message : uiReachable s → uiReachable (uiSlice.showBanner s message)
| ui_dismissBanner s : uiReachable s → uiReachable (uiSlice.dismissBanner s).

(** ** A sample environment and sample data, for concrete instances *)

Module Sample.
Definition env : Env := {|
  nanoid := λ k, pretty k;
  Date_now := λ k, (1700000000000 + Z.of_nat k)%Z;
  toLocaleString := λ ms, pretty ms
|}.

Definition world : World := {| ids_drawn := 0; clock_reads := 0 |}.

Definition A : TodoItem.t := TodoItem.mk "a" "Buy milk" false 1700000000000 "t0".
Definition B : TodoItem.t := TodoItem.mk "b" "Call home" true 1700000000001 "t1".
Definition C : TodoItem.t := TodoItem.mk "c" "Pay rent" false 1700000000002 "t2".

Definition abc : TodosState.t := TodosState.mk [A; B; C].

(** An action no case reducer is registered for. *)
Definition archiveTodo : Action :=
  {| type := Some "todos/archiveTodo"; payload := PString "a" |}.
End Sample.

(** ** The components: their state and their event handlers (lines 104-283)

    Of the components only what reaches the store is kept: the text field
    of [TodosCard] (its [useState]) and the handlers that call [dispatch].
    [String.prototype.trim] is taken as a function on strings. *)

Module view.
(** The store and the [text] of [TodosCard] (line 191). *)
Record t : Type := mk { store : RootState.t; text : string }.

Definition initial : t := mk RootState.initialState "".

(** The message of line 210. *)
Definition addedMessage : string := "A new task has been added to the list".

(** One constructor per handler: [onChangeText] (line 202), the Add button
    (lines 207-213), Done (231), Clear All (238), Undo (269), Remove (272),
    Got it (135) and the switch (176).  The three buttons of a list row
    carry the row's entry. *)
Inductive Event : Type :=
| ChangeText (value : string)
| PressAdd
| PressDone (item : TodoItem.t)
| PressClearAll
| PressUndo (item : TodoItem.t)
| PressRemove (item : TodoItem.t)
| PressGotIt
| SwitchDarkMode.

(** The Add button (lines 207-213): [if (text.trim())] is the test for a
    non-empty string; then two dispatches and [setText] of the empty
    string. *)
Definition onPressAdd (trim : string → string) (env : Env) (w : World) (app : t)
    : World * Outcome t :=
  if decide (trim (text app) = "") then (w, Next app)
  else
    let '(w', a) := actions.addTodo env w (trim (text app)) in
    (w', s1 ← dispatch (store app) a;
         s2 ← dispatch s1 (actions.showBanner addedMessage);
         mret (mk s2 "")).

Definition handle (trim : string → string) (env : Env) (w : World) (app : t)
    (e : Event) : World * Outcome t :=
  match e with
  | ChangeText value => (w, Next (mk (store app) value))
  | PressAdd => onPressAdd trim env w app
  | PressDone item | PressUndo item =>
      (w, s ← dispatch (store app) (actions.toggleTodo (TodoItem.id item));
          mret (mk s (text app)))
  | PressClearAll =>
      (w, s ← dispatch (store app) actions.clearTodos; mret (mk s (text app)))
  | PressRemove item =>
      (w, s ← dispatch (store app) (actions.removeTodo (TodoItem.id item));
          mret (mk s (text app)))
  | PressGotIt =>
      (w, s ← dispatch (store app) actions.dismissBanner; mret (mk s (text app)))
  | SwitchDarkMode =>
      (w, s ← dispatch (store app) actions.toggleDarkMode; mret (mk s (text app)))
  end.

(** Events are handled one at a time, each handler to its end. *)
Fixpoint handleAll (trim : string → string) (env : Env) (w : World) (app : t)
    (events : list Event) : World * Outcome t :=
  match events with
  | [] => (w, Next app)
  | e :: rest =>
      match handle trim env w app e with
      | (w', Next app') => handleAll trim env w' app' rest
      | stopped => stopped
      end
  end.

(** The button an event presses is on the screen: Done on the rows of the
    active list (line 219), Undo and Remove on the rows of the finished
    list (line 257), Got it on the banner (line 128). *)
Definition offered (app : t) (e : Event) : Prop :=
  match e with
  | PressDone item =>
      item ∈ activeTasks (TodosState.items (RootState.todos (store app)))
  | PressUndo item | PressRemove item =>
      item ∈ finishedTasks (TodosState.items (RootState.todos (store app)))
  | PressGotIt => UiState.showBanner (RootState.ui (store app)) = true
  | _ => True
  end.
End view.

(** ** More predicates of the properties *)

(** Intents that go to the [ui] slice. *)
Definition forUi (i : Intent) : bool :=
  match i with
  | DoToggleDarkMode | DoShowBanner _ | DoDismissBanner => true
  | _ => false
  end.

(** How many of the intents are [addTodo]. *)
Definition addCount (intents : list Intent) : nat :=
  length (List.filter (λ i, match i with DoAddTodo _ => true | _ => false end) intents).

(** The clock never runs backwards. *)
Definition monotone_clock (env : Env) : Prop :=
  ∀ i j, i ≤ j → (Date_now env i ≤ Date_now env j)%Z.

(** No entry was created later than an entry in front of it. *)
Definition newestFirst (s : TodosState.t) : Prop :=
  StronglySorted (λ earlier later, (later ≤ earlier)%Z)
    (TodoItem.createdAt <$> TodosState.items s).

(** Every entry was stamped at a clock reading already made. *)
Definition stampedBefore (env : Env) (w : World) (s : TodosState.t) : Prop :=
  ∀ t, t ∈ TodoItem.createdAt <$> TodosState.items s →
    ∃ k, k < clock_reads w ∧ t = Date_now env k.

(** How many of the events are presses of the switch. *)
Definition switchCount (events : list view.Event) : nat :=
  length (List.filter
            (λ e, match e with view.SwitchDarkMode => true | _ => false end)
            events).

(** A [trim] for concrete instances: it strips blanks at both ends. *)
Fixpoint trimStart (s : string) : string :=
  match s with
  | String c rest =>
      if Ascii.eqb c (Ascii.ascii_of_nat 32) then trimStart rest else s
  | EmptyString => s
  end.

Definition sampleTrim (s : string) : string :=
  String.rev (trimStart (String.rev (trimStart s))).

(** ** Proof steps used more than once *)

(** Closes [x ∉ l] for a literal [x] and a list of literals. *)
Ltac not_in_list :=
  let H := fresh in
  intros H; simpl in H;
  repeat (apply elem_of_cons in H as [H|H]; [discriminate H|]);
  by apply elem_of_nil in H.

(** Closes [x ∈ l] when [x] is syntactically an element of [l]. *)
Ltac in_list :=
  simpl; repeat (first [apply list_elem_of_here | apply list_elem_of_further]).

(** ** The array methods against the list library *)

Section filter_facts.
Context {A : Type} (p : A → bool).

Lemma filter_loop_acc (arr kept : list A) :
  fold_left (λ kept x, if p x then kept ++ [x] else kept) arr kept
  = kept ++ List.filter p arr.
Proof.
  revert kept. induction arr as [|x arr IH]; intros kept; simpl.
  - by rewrite app_nil_r.
  - rewrite IH. destruct (p x); [by rewrite <-app_assoc|done].
Qed.

Lemma filter_spec (arr : list A) : JsArray.filter p arr = List.filter p arr.
Proof. unfold JsArray.filter. by rewrite filter_loop_acc. Qed.

Lemma filter_elem_of (arr : list A) (x : A) :
  x ∈ JsArray.filter p arr ↔ x ∈ arr ∧ p x = true.
Proof. rewrite filter_spec, !list_elem_of_In. apply filter_In. Qed.

Lemma filter_sublist (arr : list A) : JsArray.filter p arr `sublist_of` arr.
Proof.
  rewrite filter_spec. induction arr as [|x arr IH]; simpl; [done|].
  destruct (p x); by constructor.
Qed.

Lemma filter_all (arr : list A) :
  (∀ x, x ∈ arr → p x = true) → JsArray.filter p arr = arr.
Proof.
  rewrite filter_spec. induction arr as [|x arr IH]; intros H; simpl; [done|].
  rewrite (H x) by left. f_equal. apply IH. intros y Hy. apply H. by right.
Qed.
End filter_facts.

(** ** [clearTodos] *)

(** C1: [clearTodos] leaves exactly the entries whose [done] is true, in
    the order they had: the result is the [done]-filter of the input, it is
    a subsequence of the input, an entry is in it if and only if it was in
    the input with [done] true; on [[A; B; C]] with only [B] finished the
    result is [[B]]; and a list with a finished entry is never emptied. *)
Theorem clearTodos_keeps_finished (s : TodosState.t) :
  TodosState.items (todosSlice.clearTodos s)
    = List.filter TodoItem.done (TodosState.items s)
  ∧ TodosState.items (todosSlice.clearTodos s) `sublist_of` TodosState.items s
  ∧ (∀ x, x ∈ TodosState.items (todosSlice.clearTodos s)
          ↔ x ∈ TodosState.items s ∧ TodoItem.done x = true)
  ∧ (∀ A B C, TodoItem.done A = false → TodoItem.done B = true →
        TodoItem.done C = false →
        todosSlice.clearTodos (TodosState.mk [A; B; C]) = TodosState.mk [B])
  ∧ ((∃ x, x ∈ TodosState.items s ∧ TodoItem.done x = true) →
        TodosState.items (todosSlice.clearTodos s) ≠ []).
Proof.
  unfold todosSlice.clearTodos; simpl. split_and!.
  - apply filter_spec.
  - apply filter_sublist.
  - intros x. apply filter_elem_of.
  - intros A B C HA HB HC. unfold JsArray.filter; simpl.
    by rewrite HA, HB, HC.
  - intros (x & Hx & Hdone) Hnil.
    assert (x ∈ JsArray.filter (λ item, TodoItem.done item) (TodosState.items s)) as Hin
      by by apply filter_elem_of.
    rewrite Hnil in Hin. by apply elem_of_nil in Hin.
Qed.

(** The store's own sample: only [B] of [[A; B; C]] survives, and the
    list is not emptied. *)
Lemma clearTodos_keeps_finished_sample :
  todosSlice.clearTodos Sample.abc = TodosState.mk [Sample.B]
  ∧ TodosState.items (todosSlice.clearTodos Sample.abc) ≠ [].
Proof.
  split.
  - by apply (clearTodos_keeps_finished Sample.abc).
  - apply (clearTodos_keeps_finished Sample.abc).
    exists Sample.B. split; [|done]. apply list_elem_of_further, list_elem_of_here.
Defined.

(** ** The selectors *)

(** C3: the active and the finished entries split [items]: together they
    are a permutation of [items], every entry of [items] is in exactly one
    of the two selections, and no entry is in both. *)
Theorem selectors_partition (todos : list TodoItem.t) :
  (activeTasks todos ++ finishedTasks todos) ≡ₚ todos
  ∧ (∀ x, x ∈ todos →
        (x ∈ activeTasks todos ∧ x ∉ finishedTasks todos)
        ∨ ((x ∉ activeTasks todos) ∧ x ∈ finishedTasks todos))
  ∧ (∀ x, ¬ (x ∈ activeTasks todos ∧ x ∈ finishedTasks todos))
  ∧ length (activeTasks todos) + length (finishedTasks todos) = length todos.
Proof.
  unfold activeTasks, finishedTasks.
  assert ((JsArray.filter (λ item, negb (TodoItem.done item)) todos
           ++ JsArray.filter (λ item, TodoItem.done item) todos) ≡ₚ todos) as Hperm.
  { rewrite !filter_spec. induction todos as [|x todos IH]; simpl; [done|].
    destruct (TodoItem.done x); simpl.
    - rewrite <-Permutation_middle. by constructor.
    - by constructor. }
  split_and!.
  - exact Hperm.
  - intros x Hx. rewrite !filter_elem_of.
    destruct (TodoItem.done x) eqn:Hd; simpl; [right|left];
      (split; [intros [_ ?]; discriminate | done]) || (split; [done | intros [_ ?]; discriminate]).
  - intros x. rewrite !filter_elem_of.
    destruct (TodoItem.done x); simpl; intros [[_ ?] [_ ?]]; discriminate.
  - rewrite <-length_app. by rewrite Hperm.
Qed.

(** The sample list splits into [[A; C]] and [[B]]. *)
Lemma selectors_partition_sample :
  Sample.B ∈ [Sample.A; Sample.B; Sample.C] ∧
  ((Sample.B ∈ activeTasks [Sample.A; Sample.B; Sample.C]
    ∧ Sample.B ∉ finishedTasks [Sample.A; Sample.B; Sample.C])
   ∨ ((Sample.B ∉ activeTasks [Sample.A; Sample.B; Sample.C])
      ∧ Sample.B ∈ finishedTasks [Sample.A; Sample.B; Sample.C])).
Proof.
  assert (Sample.B ∈ [Sample.A; Sample.B; Sample.C]) as Hin
    by apply list_elem_of_further, list_elem_of_here.
  split; [exact Hin|].
  exact (proj1 (proj2 (selectors_partition [Sample.A; Sample.B; Sample.C])) Sample.B Hin).
Defined.

(** ** Routing: what [dispatch] does with each creator's action *)

Section routing.
Context (state : RootState.t).

Lemma dispatch_toggleDarkMode :
  dispatch state actions.toggleDarkMode
  = Next (RootState.mk (uiSlice.toggleDarkMode (RootState.ui state)) (RootState.todos state)).
Proof. reflexivity. Qed.

Lemma dispatch_showBanner (message : string) :
  dispatch state (actions.showBanner message)
  = Next (RootState.mk (uiSlice.showBanner (RootState.ui state) message) (RootState.todos state)).
Proof. reflexivity. Qed.

Lemma dispatch_dismissBanner :
  dispatch state actions.dismissBanner
  = Next (RootState.mk (uiSlice.dismissBanner (RootState.ui state)) (RootState.todos state)).
Proof. reflexivity. Qed.

Lemma dispatch_addTodo (env : Env) (w : World) (title : string) :
  dispatch state (actions.addTodo env w title).2
  = Next (RootState.mk (RootState.ui state)
            (todosSlice.addTodo (RootState.todos state) (todosSlice.prepare env w title).2)).
Proof. reflexivity. Qed.

Lemma dispatch_toggleTodo (id : string) :
  dispatch state (actions.toggleTodo id)
  = Next (RootState.mk (RootState.ui state) (todosSlice.toggleTodo (RootState.todos state) id)).
Proof. reflexivity. Qed.

Lemma dispatch_removeTodo (id : string) :
  dispatch state (actions.removeTodo id)
  = Next (RootState.mk (RootState.ui state) (todosSlice.removeTodo (RootState.todos state) id)).
Proof. reflexivity. Qed.

Lemma dispatch_clearTodos :
  dispatch state actions.clearTodos
  = Next (RootState.mk (RootState.ui state) (todosSlice.clearTodos (RootState.todos state))).
Proof. reflexivity. Qed.
End routing.

(** ** The [ui] slice *)

(** C7: [dismissBanner] hides the banner and empties its message, whatever
    the state; applied to its own result it changes nothing, an already
    dismissed state is returned as it is, and two dispatches of it leave
    the store where one does. *)
Theorem dismissBanner_idempotent (s : UiState.t) :
  UiState.showBanner (uiSlice.dismissBanner s) = false
  ∧ UiState.bannerMessage (uiSlice.dismissBanner s) = ""
  ∧ UiState.darkMode (uiSlice.dismissBanner s) = UiState.darkMode s
  ∧ uiSlice.dismissBanner (uiSlice.dismissBanner s) = uiSlice.dismissBanner s
  ∧ (UiState.showBanner s = false → UiState.bannerMessage s = "" →
       uiSlice.dismissBanner s = s)
  ∧ (∀ todos,
       (dispatch (RootState.mk s todos) actions.dismissBanner
          ≫= λ st, dispatch st actions.dismissBanner)
       = dispatch (RootState.mk s todos) actions.dismissBanner).
Proof.
  split_and!; try reflexivity.
  intros Hhidden Hempty. destruct s as [dark visible message]; simpl in *.
  unfold uiSlice.dismissBanner; simpl. by rewrite Hhidden, Hempty.
Qed.

(** On the initial state, where no banner is shown, it is a no-op. *)
Lemma dismissBanner_idempotent_initial :
  uiSlice.dismissBanner UiState.initialState = UiState.initialState.
Proof.
  apply (dismissBanner_idempotent UiState.initialState); reflexivity.
Defined.

(** ** [toggleTodo] and [removeTodo] *)

Lemma flip_done_involutive (x : TodoItem.t) :
  TodoItem.flip_done (TodoItem.flip_done x) = x.
Proof. destruct x as [i ti d c dt]. unfold TodoItem.flip_done; simpl. by rewrite negb_involutive. Qed.

Lemma find_present (s : TodosState.t) (id : string) :
  id ∈ ids s →
  ∃ i t, JsArray.find (λ x, TodoItem.id x = id) (TodosState.items s) = Some (i, t).
Proof.
  unfold ids. intros (x & -> & Hx)%list_elem_of_fmap.
  destruct (list_find_elem_of (λ y, TodoItem.id y = TodoItem.id x) _ x Hx eq_refl)
    as [[i t] Hfind].
  by exists i, t.
Qed.

Lemma find_absent (s : TodosState.t) (id : string) :
  id ∉ ids s →
  JsArray.find (λ x, TodoItem.id x = id) (TodosState.items s) = None.
Proof.
  intros Hout. apply list_find_None, Forall_forall. intros x Hx Heq.
  apply Hout. unfold ids. apply list_elem_of_fmap. by exists x.
Qed.

(** What a hit of [find] says, and what the write through it does. *)
Lemma toggleTodo_found (s : TodosState.t) (id : string) (i : nat) (t : TodoItem.t) :
  JsArray.find (λ x, TodoItem.id x = id) (TodosState.items s) = Some (i, t) →
  TodosState.items s !! i = Some t
  ∧ TodoItem.id t = id
  ∧ (∀ j y, TodosState.items s !! j = Some y → j < i → TodoItem.id y ≠ id)
  ∧ todosSlice.toggleTodo s id
    = TodosState.mk (<[i := TodoItem.flip_done t]> (TodosState.items s)).
Proof.
  intros Hfind. unfold todosSlice.toggleTodo. rewrite Hfind.
  apply list_find_Some in Hfind as (Hi & Hid & Hfirst). by split_and!.
Qed.

(** The entry just toggled is the one a second [find] returns. *)
Lemma find_after_toggle (s : TodosState.t) (id : string) (i : nat) (t : TodoItem.t) :
  JsArray.find (λ x, TodoItem.id x = id) (TodosState.items s) = Some (i, t) →
  JsArray.find (λ x, TodoItem.id x = id)
    (TodosState.items (todosSlice.toggleTodo s id))
  = Some (i, TodoItem.flip_done t).
Proof.
  intros Hfind. destruct (toggleTodo_found s id i t Hfind) as (Hi & Hid & Hfirst & ->).
  simpl. apply list_find_Some. split_and!.
  - apply list_lookup_insert_eq. by eapply lookup_lt_Some.
  - exact Hid.
  - intros j y Hj Hlt. rewrite list_lookup_insert_ne in Hj by lia. by eapply Hfirst.
Qed.

(** C4: with an id that no entry carries, [toggleTodo] and [removeTodo]
    return the state they were given, and the dispatch of either action
    returns (it does not throw) with the store unchanged. *)
Theorem unknown_id_is_noop (s : TodosState.t) (id : string) :
  id ∉ ids s →
  todosSlice.toggleTodo s id = s
  ∧ todosSlice.removeTodo s id = s
  ∧ (∀ ui, dispatch (RootState.mk ui s) (actions.toggleTodo id)
           = Next (RootState.mk ui s))
  ∧ (∀ ui, dispatch (RootState.mk ui s) (actions.removeTodo id)
           = Next (RootState.mk ui s)).
Proof.
  intros Hout.
  assert (todosSlice.toggleTodo s id = s) as Htoggle.
  { unfold todosSlice.toggleTodo. by rewrite find_absent. }
  assert (todosSlice.removeTodo s id = s) as Hremove.
  { unfold todosSlice.removeTodo. destruct s as [items]; simpl. f_equal.
    apply filter_all. intros x Hx. apply bool_decide_eq_true. intros Heq.
    apply Hout. unfold ids; simpl. apply list_elem_of_fmap. by exists x. }
  split_and!; [done|done|intros ui|intros ui].
  - rewrite dispatch_toggleTodo; simpl. by rewrite Htoggle.
  - rewrite dispatch_removeTodo; simpl. by rewrite Hremove.
Qed.

(** No entry of the sample list has the id z. *)
Lemma unknown_id_is_noop_sample :
  todosSlice.toggleTodo Sample.abc "z" = Sample.abc
  ∧ todosSlice.removeTodo Sample.abc "z" = Sample.abc.
Proof.
  assert ("z" ∉ ids Sample.abc) as Hout by not_in_list.
  destruct (unknown_id_is_noop Sample.abc "z" Hout) as (Ht & Hr & _).
  by split.
Defined.

(** C6: for an id some entry carries, [toggleTodo] flips the [done] flag
    of the first such entry, a second [toggleTodo] finds the same entry and
    flips it back, and the state after the two calls is the state before
    them. *)
Theorem toggleTodo_involution (s : TodosState.t) (id : string) :
  id ∈ ids s →
  ∃ i t,
    TodosState.items s !! i = Some t
    ∧ TodoItem.id t = id
    ∧ (TodoItem.done <$> TodosState.items (todosSlice.toggleTodo s id) !! i)
      = Some (negb (TodoItem.done t))
    ∧ (TodoItem.done <$>
         TodosState.items (todosSlice.toggleTodo (todosSlice.toggleTodo s id) id) !! i)
      = Some (TodoItem.done t)
    ∧ todosSlice.toggleTodo (todosSlice.toggleTodo s id) id = s.
Proof.
  intros (i & t & Hfind)%find_present. exists i, t.
  pose proof (find_after_toggle s id i t Hfind) as Hfind'.
  destruct (toggleTodo_found s id i t Hfind) as (Hi & Hid & _ & Hs').
  destruct (toggleTodo_found _ id i _ Hfind') as (Hi' & _ & _ & Hs'').
  assert (todosSlice.toggleTodo (todosSlice.toggleTodo s id) id = s) as Hback.
  { rewrite Hs'', Hs'; simpl.
    rewrite list_insert_insert_eq, flip_done_involutive, list_insert_id by done.
    by destruct s. }
  split_and!; [done|done| |  |done].
  - by rewrite Hi'.
  - by rewrite Hback, Hi.
Qed.

(** Entry b of the sample list is finished; two toggles leave it so. *)
Lemma toggleTodo_involution_sample :
  todosSlice.toggleTodo (todosSlice.toggleTodo Sample.abc "b") "b" = Sample.abc.
Proof.
  assert ("b" ∈ ids Sample.abc) as Hin by in_list.
  destruct (toggleTodo_involution Sample.abc "b" Hin) as (i & t & _ & _ & _ & _ & Hback).
  exact Hback.
Defined.

(** C10: for an id some entry carries, [toggleTodo] writes to the first
    entry with that id and to nothing else: the list keeps its length, every
    other position keeps its entry, the ids stay in the same order, and the
    entry written to keeps its id, title, creation time and rendered time
    while its [done] flag is negated. *)
Theorem toggleTodo_frame (s : TodosState.t) (id : string) :
  id ∈ ids s →
  ∃ i t t',
    TodosState.items s !! i = Some t
    ∧ TodoItem.id t = id
    ∧ (∀ j y, TodosState.items s !! j = Some y → j < i → TodoItem.id y ≠ id)
    ∧ TodosState.items (todosSlice.toggleTodo s id) !! i = Some t'
    ∧ TodoItem.id t' = TodoItem.id t
    ∧ TodoItem.title t' = TodoItem.title t
    ∧ TodoItem.createdAt t' = TodoItem.createdAt t
    ∧ TodoItem.dateTime t' = TodoItem.dateTime t
    ∧ TodoItem.done t' = negb (TodoItem.done t)
    ∧ length (TodosState.items (todosSlice.toggleTodo s id))
      = length (TodosState.items s)
    ∧ (∀ j, j ≠ i →
         TodosState.items (todosSlice.toggleTodo s id) !! j = TodosState.items s !! j)
    ∧ ids (todosSlice.toggleTodo s id) = ids s.
Proof.
  intros (i & t & Hfind)%find_present. exists i, t, (TodoItem.flip_done t).
  destruct (toggleTodo_found s id i t Hfind) as (Hi & Hid & Hfirst & ->); simpl.
  split_and!; try done.
  - apply list_lookup_insert_eq. by eapply lookup_lt_Some.
  - apply length_insert.
  - intros j Hj. by apply list_lookup_insert_ne.
  - unfold ids; simpl. rewrite list_fmap_insert; simpl.
    apply list_insert_id. by rewrite list_lookup_fmap, Hi.
Qed.

(** Toggling b in the sample list keeps the three ids in place. *)
Lemma toggleTodo_frame_sample :
  ids (todosSlice.toggleTodo Sample.abc "b") = ids Sample.abc
  ∧ length (TodosState.items (todosSlice.toggleTodo Sample.abc "b")) = 3.
Proof.
  assert ("b" ∈ ids Sample.abc) as Hin by in_list.
  destruct (toggleTodo_frame Sample.abc "b" Hin)
    as (i & t & t' & _ & _ & _ & _ & _ & _ & _ & _ & _ & Hlen & _ & Hids).
  split; [exact Hids | exact Hlen].
Defined.

(** ** The store and unknown action types *)

Lemma caseReducerFor_None {S : Type} (sl : Slice S) (ty : string) :
  ty ∉ handledTypes sl → caseReducerFor sl ty = None.
Proof.
  intros Hout. unfold caseReducerFor.
  destruct (list_find _ _) as [[i [key cr]]|] eqn:Hfind; [|done].
  apply list_find_Some in Hfind as (Hi & Hty & _). simpl in Hty.
  destruct Hout. unfold handledTypes. apply list_elem_of_fmap.
  exists (key, cr). split; [done|]. by eapply list_elem_of_lookup_2.
Qed.

Lemma caseReducerFor_Some {S : Type} (sl : Slice S) (ty : string) :
  ty ∈ handledTypes sl → is_Some (caseReducerFor sl ty).
Proof.
  unfold handledTypes. intros ([key cr] & -> & Hin)%list_elem_of_fmap.
  unfold caseReducerFor.
  destruct (list_find_elem_of (λ kv, actionType (sliceName sl) kv.1
                                      = actionType (sliceName sl) key)
              (caseReducers sl) (key, cr) Hin eq_refl) as [[i [key' cr']] Hfind].
  simpl. rewrite Hfind. by eexists.
Qed.

Lemma sliceReducer_unhandled {S : Type} (sl : Slice S) (state : S) (ty : string)
    (p : Payload) :
  ty ∉ handledTypes sl → sliceReducer sl state ty p = Next state.
Proof. intros Hout. unfold sliceReducer. by rewrite caseReducerFor_None. Qed.

Lemma sliceReducer_not_thrown {S : Type} (sl : Slice S) (state : S) (ty : string)
    (p : Payload) (e : JsError) :
  sliceReducer sl state ty p ≠ Thrown e.
Proof.
  unfold sliceReducer. destruct (caseReducerFor sl ty) as [[r|r|r]|]; [| | |done];
    destruct p; done.
Qed.

Lemma handledTypes_disjoint (ty : string) :
  ty ∈ handledTypes uiSlice.slice → ty ∉ handledTypes todosSlice.slice.
Proof.
  intros Hui. simpl in Hui.
  repeat (apply elem_of_cons in Hui as [->|Hui]; [not_in_list|]).
  by apply elem_of_nil in Hui.
Qed.

(** C5, as the code has it: an action whose type is none of the seven the
    slices register is not rejected.  Its dispatch returns with both slices
    as they were; a dispatch throws only for an action that carries no type
    at all.  Each of the seven types has a case reducer in exactly one of
    the two slices, and the action of each creator runs that case reducer
    on its slice and leaves the other slice alone. *)
Theorem unknown_intent_is_noop (state : RootState.t) :
  (∀ a ty, type a = Some ty → ty ∉ knownTypes → dispatch state a = Next state)
  ∧ (∀ a, rejected (dispatch state a) ↔ type a = None)
  ∧ (∀ ty, ty ∈ knownTypes →
       (is_Some (caseReducerFor uiSlice.slice ty)
        ∧ caseReducerFor todosSlice.slice ty = None)
       ∨ (caseReducerFor uiSlice.slice ty = None
          ∧ is_Some (caseReducerFor todosSlice.slice ty)))
  ∧ dispatch state actions.toggleDarkMode
    = Next (RootState.mk (uiSlice.toggleDarkMode (RootState.ui state))
              (RootState.todos state))
  ∧ (∀ message, dispatch state (actions.showBanner message)
       = Next (RootState.mk (uiSlice.showBanner (RootState.ui state) message)
                 (RootState.todos state)))
  ∧ dispatch state actions.dismissBanner
    = Next (RootState.mk (uiSlice.dismissBanner (RootState.ui state))
              (RootState.todos state))
  ∧ (∀ env w title, dispatch state (actions.addTodo env w title).2
       = Next (RootState.mk (RootState.ui state)
                 (todosSlice.addTodo (RootState.todos state)
                    (todosSlice.prepare env w title).2)))
  ∧ (∀ id, dispatch state (actions.toggleTodo id)
       = Next (RootState.mk (RootState.ui state)
                 (todosSlice.toggleTodo (RootState.todos state) id)))
  ∧ (∀ id, dispatch state (actions.removeTodo id)
       = Next (RootState.mk (RootState.ui state)
                 (todosSlice.removeTodo (RootState.todos state) id)))
  ∧ dispatch state actions.clearTodos
    = Next (RootState.mk (RootState.ui state)
              (todosSlice.clearTodos (RootState.todos state))).
Proof.
  split_and!; try reflexivity.
  - intros [aty p] ty Hty Hout. simpl in Hty. subst aty.
    unfold knownTypes in Hout. apply not_elem_of_app in Hout as [Hui Htodos].
    unfold dispatch, rootReducer; simpl.
    rewrite !sliceReducer_unhandled by done. by destruct state.
  - intros [[ty|] p]; unfold rejected, dispatch; simpl.
    + split; [|done]. intros [e He]. unfold rootReducer in He.
      destruct (sliceReducer uiSlice.slice (RootState.ui state) ty p) as [u|e'|] eqn:Hu;
        simpl in He; [|by apply sliceReducer_not_thrown in Hu|done].
      destruct (sliceReducer todosSlice.slice (RootState.todos state) ty p) as [t|e'|] eqn:Ht;
        simpl in He; [done|by apply sliceReducer_not_thrown in Ht|done].
    + split; [done|]. intros _. by eexists.
  - intros ty. unfold knownTypes. intros [Hui|Htodos]%elem_of_app.
    + left. split; [by apply caseReducerFor_Some|].
      by apply caseReducerFor_None, handledTypes_disjoint.
    + right. split; [|by apply caseReducerFor_Some].
      apply caseReducerFor_None. intros Hui.
      by apply (handledTypes_disjoint ty Hui).
Qed.

(** An action of type todos/archiveTodo leaves the initial store as it is. *)
Lemma unknown_intent_is_noop_sample :
  dispatch RootState.initialState Sample.archiveTodo = Next RootState.initialState.
Proof.
  apply (unknown_intent_is_noop RootState.initialState) with (ty := "todos/archiveTodo").
  - reflexivity.
  - not_in_list.
Defined.

(** C5, as the claim words it, fails: the action of type todos/archiveTodo
    names none of the seven intents, yet its dispatch returns the store
    unchanged and is not rejected. *)
Lemma unknown_intent_not_rejected :
  type Sample.archiveTodo = Some "todos/archiveTodo"
  ∧ ("todos/archiveTodo" ∉ knownTypes)
  ∧ dispatch RootState.initialState Sample.archiveTodo = Next RootState.initialState
  ∧ ¬ rejected (dispatch RootState.initialState Sample.archiveTodo)
  ∧ ¬ (∀ state a ty, type a = Some ty → ty ∉ knownTypes →
         rejected (dispatch state a)).
Proof.
  assert ("todos/archiveTodo" ∉ knownTypes) as Hout by not_in_list.
  assert (¬ rejected (dispatch RootState.initialState Sample.archiveTodo)) as Hnot.
  { intros [e He]. discriminate He. }
  split_and!; [reflexivity|exact Hout|reflexivity|exact Hnot|].
  intros Hclaim. apply Hnot. by eapply Hclaim.
Qed.

(** ** Sequences of dispatches *)

Lemma perform_spec (env : Env) (w : World) (state : RootState.t) (i : Intent) :
  perform env w state i =
  match i with
  | DoToggleDarkMode =>
      (w, Next (RootState.mk (uiSlice.toggleDarkMode (RootState.ui state))
                  (RootState.todos state)))
  | DoShowBanner message =>
      (w, Next (RootState.mk (uiSlice.showBanner (RootState.ui state) message)
                  (RootState.todos state)))
  | DoDismissBanner =>
      (w, Next (RootState.mk (uiSlice.dismissBanner (RootState.ui state))
                  (RootState.todos state)))
  | DoAddTodo title =>
      ((todosSlice.prepare env w title).1,
       Next (RootState.mk (RootState.ui state)
               (todosSlice.addTodo (RootState.todos state)
                  (todosSlice.prepare env w title).2)))
  | DoToggleTodo id =>
      (w, Next (RootState.mk (RootState.ui state)
                  (todosSlice.toggleTodo (RootState.todos state) id)))
  | DoRemoveTodo id =>
      (w, Next (RootState.mk (RootState.ui state)
                  (todosSlice.removeTodo (RootState.todos state) id)))
  | DoClearTodos =>
      (w, Next (RootState.mk (RootState.ui state)
                  (todosSlice.clearTodos (RootState.todos state))))
  end.
Proof. destruct i; reflexivity. Qed.

(** No dispatch of the view throws. *)
Lemma perform_returns (env : Env) (w : World) (state : RootState.t) (i : Intent) :
  ∃ w' state', perform env w state i = (w', Next state').
Proof. rewrite perform_spec. destruct i; eauto. Qed.

(** A property every dispatch keeps holds after any sequence of them, and
    the sequence runs to its end. *)
Lemma run_invariant (env : Env) (I : World → RootState.t → Prop) :
  (∀ w state i w' state',
      I w state → perform env w state i = (w', Next state') → I w' state') →
  ∀ intents w state, I w state →
    ∃ w' state', run env w state intents = (w', Next state') ∧ I w' state'.
Proof.
  intros Hstep intents. induction intents as [|i rest IH]; intros w state HI; simpl.
  - by exists w, state.
  - destruct (perform_returns env w state i) as (w1 & state1 & Hperform).
    rewrite Hperform. apply IH. by eapply Hstep.
Qed.

Lemma ids_toggleTodo (s : TodosState.t) (id : string) :
  ids (todosSlice.toggleTodo s id) = ids s.
Proof.
  destruct (JsArray.find (λ x, TodoItem.id x = id) (TodosState.items s))
    as [[i t]|] eqn:Hfind.
  - destruct (toggleTodo_found s id i t Hfind) as (Hi & _ & _ & ->).
    unfold ids; simpl. rewrite list_fmap_insert; simpl.
    apply list_insert_id. by rewrite list_lookup_fmap, Hi.
  - unfold todosSlice.toggleTodo. by rewrite Hfind.
Qed.

Lemma ids_filter_sublist (p : TodoItem.t → bool) (s : TodosState.t) :
  ids (TodosState.mk (JsArray.filter p (TodosState.items s))) `sublist_of` ids s.
Proof. unfold ids; simpl. apply fmap_sublist, filter_sublist. Qed.

(** Distinct ids, all drawn earlier: what every dispatch keeps when the
    generator does not repeat itself. *)
Lemma distinct_ids_step (env : Env) (w w' : World) (state state' : RootState.t)
    (i : Intent) :
  fresh_ids env →
  NoDup (ids (RootState.todos state)) ∧ drawnBefore env w (RootState.todos state) →
  perform env w state i = (w', Next state') →
  NoDup (ids (RootState.todos state')) ∧ drawnBefore env w' (RootState.todos state').
Proof.
  intros Hfresh [Hnodup Hdrawn]. rewrite perform_spec.
  destruct i; intros [= <- <-]; simpl; try done.
  - (* addTodo *)
    split.
    + unfold ids; simpl. apply NoDup_cons. split; [|exact Hnodup].
      intros (k & Hk & Heq)%Hdrawn. apply Hfresh in Heq. lia.
    + intros id. unfold ids; simpl.
      intros [->|Hin]%elem_of_cons.
      * exists (ids_drawn w). split; [lia|done].
      * destruct (Hdrawn id Hin) as (k & Hk & ->). exists k. split; [lia|done].
  - (* toggleTodo *)
    unfold drawnBefore. by rewrite ids_toggleTodo.
  - (* removeTodo *)
    split.
    + eapply sublist_NoDup; [exact Hnodup|apply ids_filter_sublist].
    + intros id' Hin. apply Hdrawn.
      exact (sublist_subseteq _ _ (ids_filter_sublist _ _) id' Hin).
  - (* clearTodos *)
    split.
    + eapply sublist_NoDup; [exact Hnodup|apply ids_filter_sublist].
    + intros id' Hin. apply Hdrawn.
      exact (sublist_subseteq _ _ (ids_filter_sublist _ _) id' Hin).
Qed.

Lemma sample_env_fresh : fresh_ids Sample.env.
Proof. intros i j Heq. simpl in Heq. by apply (inj pretty) in Heq. Qed.

(** C9: when the generator never repeats an id, after any sequence of
    dispatches of the view from the initial store (addTodo, toggleTodo,
    removeTodo and clearTodos among them) the sequence has run to its end
    without a throw and the ids of the entries are pairwise distinct: two
    positions of [items] holding the same id are the same position. *)
Theorem ids_pairwise_distinct (env : Env) (w : World) (intents : list Intent) :
  fresh_ids env →
  ∃ w' state,
    run env w RootState.initialState intents = (w', Next state)
    ∧ NoDup (ids (RootState.todos state))
    ∧ (∀ i j x y,
         TodosState.items (RootState.todos state) !! i = Some x →
         TodosState.items (RootState.todos state) !! j = Some y →
         TodoItem.id x = TodoItem.id y → i = j).
Proof.
  intros Hfresh.
  destruct (run_invariant env
              (λ w state, NoDup (ids (RootState.todos state))
                          ∧ drawnBefore env w (RootState.todos state))
              (λ w0 st i w1 st1 HI Hp, distinct_ids_step env w0 w1 st st1 i Hfresh HI Hp)
              intents w RootState.initialState)
    as (w' & state & Hrun & Hnodup & _).
  { split; [constructor|]. intros id Hin. by apply elem_of_nil in Hin. }
  exists w', state. split_and!; [done|done|].
  intros i j x y Hi Hj Heq.
  apply (proj1 (NoDup_alt _) Hnodup i j (TodoItem.id x)); unfold ids;
    rewrite list_lookup_fmap.
  - by rewrite Hi.
  - by rewrite Hj, Heq.
Qed.

(** Two entries added, the first toggled, the unfinished ones cleared, one
    more added: the ids that remain are distinct. *)
Lemma ids_pairwise_distinct_sample :
  ∃ w' state,
    run Sample.env Sample.world RootState.initialState
      [DoAddTodo "Buy milk"; DoAddTodo "Call home"; DoToggleTodo "0";
       DoClearTodos; DoAddTodo "Pay rent"; DoRemoveTodo "1"]
    = (w', Next state)
    ∧ NoDup (ids (RootState.todos state)).
Proof.
  destruct (ids_pairwise_distinct Sample.env Sample.world
              [DoAddTodo "Buy milk"; DoAddTodo "Call home"; DoToggleTodo "0";
               DoClearTodos; DoAddTodo "Pay rent"; DoRemoveTodo "1"]
              sample_env_fresh)
    as (w' & state & Hrun & Hnodup & _).
  by exists w', state.
Defined.

(** ** [addTodo] *)

Lemma run_addTodos (env : Env) (titles : list string) :
  ∀ w state, ∃ w' added,
    run env w state (DoAddTodo <$> titles)
    = (w', Next (RootState.mk (RootState.ui state)
                   (TodosState.mk (added ++ TodosState.items (RootState.todos state)))))
    ∧ TodoItem.title <$> added = reverse titles
    ∧ TodoItem.id <$> added = reverse (nanoid env <$> seq (ids_drawn w) (length titles))
    ∧ Forall (λ x, TodoItem.done x = false) added
    ∧ ids_drawn w' = ids_drawn w + length titles.
Proof.
  induction titles as [|title rest IH]; intros w state.
  - exists w, []. simpl. split_and!; try done; try lia.
    by destruct state as [u [l]].
  - cbn [fmap list_fmap run]. rewrite perform_spec.
    destruct (IH (todosSlice.prepare env w title).1
                 (RootState.mk (RootState.ui state)
                    (todosSlice.addTodo (RootState.todos state)
                       (todosSlice.prepare env w title).2)))
      as (w' & added & Hrun & Htitles & Hids & Hdone & Hdrawn).
    exists w', (added ++ [(todosSlice.prepare env w title).2]).
    simpl in *. split_and!.
    + rewrite Hrun. by rewrite <-app_assoc.
    + by rewrite fmap_app, Htitles, reverse_cons.
    + by rewrite fmap_app, Hids, reverse_cons.
    + apply Forall_app. split; [done|]. by constructor.
    + lia.
Qed.

(** C2: whatever the title, the empty one included, a dispatch of
    [addTodo(title)] returns with one new entry in front of the entries
    there were; the entry has the given title, [done] false and the id the
    generator returned at this call, which is none of the ids in the list
    when the generator does not repeat itself and the ids in the list came
    from it.  After one [addTodo] per title of a list, from the initial
    store, [items] is as long as the list of titles and holds the titles
    newest first, so its head is the entry added last. *)
Theorem addTodo_prepends (env : Env) (w : World) :
  (∀ state title, ∃ w' item,
      perform env w state (DoAddTodo title)
      = (w', Next (RootState.mk (RootState.ui state)
                     (TodosState.mk (item :: TodosState.items (RootState.todos state)))))
      ∧ TodoItem.title item = title
      ∧ TodoItem.done item = false
      ∧ TodoItem.id item = nanoid env (ids_drawn w)
      ∧ ids_drawn w' = S (ids_drawn w)
      ∧ (fresh_ids env → drawnBefore env w (RootState.todos state) →
           TodoItem.id item ∉ ids (RootState.todos state)))
  ∧ (∀ titles, ∃ w' state,
      run env w RootState.initialState (DoAddTodo <$> titles) = (w', Next state)
      ∧ length (TodosState.items (RootState.todos state)) = length titles
      ∧ TodoItem.title <$> TodosState.items (RootState.todos state) = reverse titles
      ∧ head (TodoItem.title <$> TodosState.items (RootState.todos state)) = last titles
      ∧ ids (RootState.todos state)
        = reverse (nanoid env <$> seq (ids_drawn w) (length titles))
      ∧ Forall (λ x, TodoItem.done x = false) (TodosState.items (RootState.todos state))
      ∧ (fresh_ids env → NoDup (ids (RootState.todos state)))).
Proof.
  split.
  - intros state title. rewrite perform_spec.
    exists (todosSlice.prepare env w title).1, (todosSlice.prepare env w title).2.
    simpl. split_and!; try done.
    intros Hfresh Hdrawn (k & Hk & Heq)%Hdrawn. apply Hfresh in Heq. lia.
  - intros titles.
    destruct (run_addTodos env titles w RootState.initialState)
      as (w' & added & Hrun & Htitles & Hids & Hdone & _).
    simpl in Hrun. rewrite app_nil_r in Hrun.
    eexists w', _. split; [exact Hrun|]. simpl. split_and!.
    + by rewrite <-(length_fmap TodoItem.title), Htitles, length_reverse.
    + exact Htitles.
    + by rewrite Htitles, head_reverse.
    + exact Hids.
    + exact Hdone.
    + intros Hfresh. unfold ids; simpl. rewrite Hids.
      rewrite reverse_Permutation. apply NoDup_fmap_2_strong; [|apply NoDup_seq].
      intros i j _ _ Heq. by apply Hfresh.
Qed.

(** An empty title and then a real one, in the sample environment. *)
Lemma addTodo_prepends_sample :
  ∃ w' state,
    run Sample.env Sample.world RootState.initialState
      (DoAddTodo <$> [""; "Buy milk"]) = (w', Next state)
    ∧ length (TodosState.items (RootState.todos state)) = 2
    ∧ TodoItem.title <$> TodosState.items (RootState.todos state) = ["Buy milk"; ""]
    ∧ NoDup (ids (RootState.todos state)).
Proof.
  destruct (proj2 (addTodo_prepends Sample.env Sample.world) [""; "Buy milk"])
    as (w' & state & Hrun & Hlen & Htitles & _ & _ & _ & Hnodup).
  exists w', state. split_and!; [exact Hrun|exact Hlen|exact Htitles|].
  apply Hnodup, sample_env_fresh.
Defined.

(** ** The banner invariant *)

Lemma bannerInvariant_step (s : UiState.t) :
  bannerInvariant s →
  bannerInvariant (uiSlice.toggleDarkMode s)
  ∧ (∀ message, bannerInvariant (uiSlice.showBanner s message))
  ∧ bannerInvariant (uiSlice.dismissBanner s).
Proof.
  unfold bannerInvariant. intros Hs. split_and!; simpl.
  - exact Hs.
  - intros message Hshown. discriminate Hshown.
  - reflexivity.
Qed.

(** Every dispatch of the view moves the [ui] slice by one of its three
    transitions or leaves it alone. *)
Lemma ui_reachable_step (env : Env) (w : World) (state : RootState.t) (i : Intent)
    (w' : World) (state' : RootState.t) :
  uiReachable (RootState.ui state) →
  perform env w state i = (w', Next state') →
  uiReachable (RootState.ui state').
Proof.
  intros Hreach. rewrite perform_spec.
  destruct i; intros [= <- <-]; simpl; try done; by constructor.
Qed.

(** C8: a hidden banner has an empty message in the initial state; the
    three transitions of the slice keep it so ([showBanner] and
    [dismissBanner] from any state at all); hence it is so in every state
    the slice can reach, and in the [ui] part of the store after any
    sequence of dispatches. *)
Theorem bannerInvariant_reachable :
  bannerInvariant UiState.initialState
  ∧ (∀ s, bannerInvariant s → bannerInvariant (uiSlice.toggleDarkMode s))
  ∧ (∀ s message, bannerInvariant (uiSlice.showBanner s message))
  ∧ (∀ s, bannerInvariant (uiSlice.dismissBanner s))
  ∧ (∀ s, uiReachable s → bannerInvariant s)
  ∧ (∀ env w intents, ∃ w' state,
       run env w RootState.initialState intents = (w', Next state)
       ∧ uiReachable (RootState.ui state)
       ∧ bannerInvariant (RootState.ui state)).
Proof.
  assert (∀ s, uiReachable s → bannerInvariant s) as Hreachable.
  { intros s Hreach. induction Hreach as [|s _ IH|s message _ IH|s _ IH].
    - intros _. reflexivity.
    - by apply bannerInvariant_step.
    - by apply bannerInvariant_step.
    - by apply bannerInvariant_step. }
  split_and!.
  - intros _. reflexivity.
  - intros s Hs. by apply bannerInvariant_step.
  - intros s message Hshown. discriminate Hshown.
  - intros s _. reflexivity.
  - exact Hreachable.
  - intros env w intents.
    destruct (run_invariant env (λ _ state, uiReachable (RootState.ui state))
                (ui_reachable_step env) intents w RootState.initialState ui_initial)
      as (w' & state & Hrun & Hreach).
    exists w', state. split_and!; [done|done|by apply Hreachable].
Qed.

(** A banner shown, the theme switched, the banner dismissed. *)
Lemma bannerInvariant_reachable_sample :
  uiReachable
    (uiSlice.dismissBanner
       (uiSlice.toggleDarkMode
          (uiSlice.showBanner UiState.initialState
             "A new task has been added to the list")))
  ∧ bannerInvariant
      (uiSlice.dismissBanner
         (uiSlice.toggleDarkMode
            (uiSlice.showBanner UiState.initialState
               "A new task has been added to the list"))).
Proof.
  assert (uiReachable
            (uiSlice.dismissBanner
               (uiSlice.toggleDarkMode
                  (uiSlice.showBanner UiState.initialState
                     "A new task has been added to the list")))) as Hreach
    by apply ui_dismissBanner, ui_toggleDarkMode, ui_showBanner, ui_initial.
  split; [exact Hreach|].
  destruct bannerInvariant_reachable as (_ & _ & _ & _ & Hinv & _).
  exact (Hinv _ Hreach).
Defined.

(** ** More on the filters: [removeTodo] and [clearTodos] *)

Lemma filter_filter_comm {A : Type} (p q : A → bool) (arr : list A) :
  JsArray.filter p (JsArray.filter q arr) = JsArray.filter q (JsArray.filter p arr).
Proof.
  rewrite !filter_spec. induction arr as [|x arr IH]; simpl; [done|].
  destruct (p x) eqn:Hp, (q x) eqn:Hq; simpl; rewrite ?Hp, ?Hq, IH; done.
Qed.

Lemma filter_app_loop {A : Type} (p : A → bool) (l1 l2 : list A) :
  JsArray.filter p (l1 ++ l2) = JsArray.filter p l1 ++ JsArray.filter p l2.
Proof. rewrite !filter_spec. apply List.filter_app. Qed.

Lemma filter_none {A : Type} (p : A → bool) (arr : list A) :
  (∀ x, x ∈ arr → p x = false) → JsArray.filter p arr = [].
Proof.
  rewrite filter_spec. induction arr as [|x arr IH]; intros H; simpl; [done|].
  rewrite (H x) by left. apply IH. intros y Hy. apply H. by right.
Qed.

Lemma filter_idempotent {A : Type} (p : A → bool) (arr : list A) :
  JsArray.filter p (JsArray.filter p arr) = JsArray.filter p arr.
Proof. apply filter_all. by intros x [_ Hp]%filter_elem_of. Qed.

(** X1: [removeTodo] drops every entry that carries the id, not only the
    first: afterwards the id is gone from the list, the entries with
    another id are all still there in the order they had, and a second
    [removeTodo] of the same id changes nothing. *)
Theorem removeTodo_removes_every_match (s : TodosState.t) (id : string) :
  (id ∉ ids (todosSlice.removeTodo s id))
  ∧ (∀ x, x ∈ TodosState.items (todosSlice.removeTodo s id)
          ↔ x ∈ TodosState.items s ∧ TodoItem.id x ≠ id)
  ∧ TodosState.items (todosSlice.removeTodo s id) `sublist_of` TodosState.items s
  ∧ TodosState.items (todosSlice.removeTodo s id)
    = List.filter (λ x, bool_decide (TodoItem.id x ≠ id)) (TodosState.items s)
  ∧ todosSlice.removeTodo (todosSlice.removeTodo s id) id = todosSlice.removeTodo s id.
Proof.
  unfold todosSlice.removeTodo; simpl.
  assert (∀ x, x ∈ JsArray.filter (λ x, bool_decide (TodoItem.id x ≠ id)) (TodosState.items s)
               ↔ x ∈ TodosState.items s ∧ TodoItem.id x ≠ id) as Hmem.
  { intros x. by rewrite filter_elem_of, bool_decide_eq_true. }
  split_and!.
  - unfold ids; simpl. intros (x & Hid & Hx)%list_elem_of_fmap.
    apply Hmem in Hx as [_ Hne]. by destruct Hne.
  - exact Hmem.
  - apply filter_sublist.
  - apply filter_spec.
  - by rewrite filter_idempotent.
Qed.

(** With distinct ids the filter of [removeTodo] drops one entry. *)
Lemma removeTodo_at (l1 l2 : list TodoItem.t) (x : TodoItem.t) :
  NoDup (TodoItem.id <$> (l1 ++ x :: l2)) →
  JsArray.filter (λ y, bool_decide (TodoItem.id y ≠ TodoItem.id x)) (l1 ++ x :: l2)
  = l1 ++ l2.
Proof.
  intros Hnodup. rewrite fmap_app, fmap_cons in Hnodup.
  apply NoDup_app in Hnodup as (_ & Hl1 & Hx2).
  apply NoDup_cons in Hx2 as [Hl2 _].
  rewrite filter_app_loop, (filter_app_loop _ [x] l2).
  rewrite (filter_all _ l1), (filter_all _ l2), (filter_none _ [x]); [done| | |].
  - intros y ->%list_elem_of_singleton. apply bool_decide_eq_false. by intros H; apply H.
  - intros y Hy. apply bool_decide_eq_true. intros Heq. apply Hl2.
    apply list_elem_of_fmap. by exists y.
  - intros y Hy. apply bool_decide_eq_true. intros Heq.
    apply (Hl1 (TodoItem.id y)); [apply list_elem_of_fmap; by exists y|].
    rewrite Heq. left.
Qed.

(** X2: when the ids of the list are pairwise distinct and one entry
    carries the id, [removeTodo] takes out that one entry and nothing else:
    the list is the entries before it followed by the entries after it, one
    shorter than before. *)
Theorem removeTodo_unique_id (s : TodosState.t) (id : string) :
  NoDup (ids s) → id ∈ ids s →
  ∃ l1 x l2,
    TodosState.items s = l1 ++ x :: l2
    ∧ TodoItem.id x = id
    ∧ TodosState.items (todosSlice.removeTodo s id) = l1 ++ l2
    ∧ S (length (TodosState.items (todosSlice.removeTodo s id)))
      = length (TodosState.items s).
Proof.
  unfold ids. intros Hnodup (x & -> & Hx)%list_elem_of_fmap.
  destruct (list_elem_of_split _ _ Hx) as (l1 & l2 & Hsplit).
  exists l1, x, l2. rewrite Hsplit in Hnodup.
  assert (TodosState.items (todosSlice.removeTodo s (TodoItem.id x)) = l1 ++ l2) as Hrem.
  { unfold todosSlice.removeTodo; simpl. rewrite Hsplit. by apply removeTodo_at. }
  split_and!; [done|done|done|].
  rewrite Hrem, Hsplit, !length_app. simpl. lia.
Qed.

(** Removing b from the sample list leaves a and c. *)
Lemma removeTodo_unique_id_sample :
  ∃ l1 x l2,
    TodosState.items Sample.abc = l1 ++ x :: l2
    ∧ TodoItem.id x = "b"
    ∧ TodosState.items (todosSlice.removeTodo Sample.abc "b") = l1 ++ l2
    ∧ S (length (TodosState.items (todosSlice.removeTodo Sample.abc "b"))) = 3.
Proof.
  assert (NoDup (ids Sample.abc)) as Hnodup.
  { simpl. repeat (apply NoDup_cons; split; [not_in_list|]). constructor. }
  assert ("b" ∈ ids Sample.abc) as Hin by in_list.
  exact (removeTodo_unique_id Sample.abc "b" Hnodup Hin).
Defined.

(** X3: after [clearTodos] the Active card has no row and the Finished card
    has the rows it had: the active selection of the result is empty, the
    finished selection is the whole result and equals the finished
    selection of the input; a second [clearTodos] changes nothing. *)
Theorem clearTodos_then_selectors (s : TodosState.t) :
  activeTasks (TodosState.items (todosSlice.clearTodos s)) = []
  ∧ finishedTasks (TodosState.items (todosSlice.clearTodos s))
    = TodosState.items (todosSlice.clearTodos s)
  ∧ finishedTasks (TodosState.items (todosSlice.clearTodos s))
    = finishedTasks (TodosState.items s)
  ∧ todosSlice.clearTodos (todosSlice.clearTodos s) = todosSlice.clearTodos s.
Proof.
  unfold todosSlice.clearTodos, activeTasks, finishedTasks; simpl. split_and!.
  - apply filter_none. intros x [_ Hdone]%filter_elem_of. by rewrite Hdone.
  - apply filter_idempotent.
  - apply filter_idempotent.
  - by rewrite filter_idempotent.
Qed.

(** X4: the two filters of the slice do not care about their order:
    [removeTodo] commutes with [clearTodos] and with [removeTodo] of
    another id, and neither ever lengthens the list. *)
Theorem filters_commute (s : TodosState.t) (id1 id2 : string) :
  todosSlice.removeTodo (todosSlice.clearTodos s) id1
    = todosSlice.clearTodos (todosSlice.removeTodo s id1)
  ∧ todosSlice.removeTodo (todosSlice.removeTodo s id1) id2
    = todosSlice.removeTodo (todosSlice.removeTodo s id2) id1
  ∧ length (TodosState.items (todosSlice.removeTodo s id1)) ≤ length (TodosState.items s)
  ∧ length (TodosState.items (todosSlice.clearTodos s)) ≤ length (TodosState.items s).
Proof.
  unfold todosSlice.removeTodo, todosSlice.clearTodos; simpl. split_and!.
  - f_equal. apply filter_filter_comm.
  - f_equal. apply filter_filter_comm.
  - apply sublist_length, filter_sublist.
  - apply sublist_length, filter_sublist.
Qed.

(** ** More on [toggleTodo] *)

(** With distinct ids, [find] returns the entry itself. *)
Lemma find_unique (l1 l2 : list TodoItem.t) (x : TodoItem.t) :
  NoDup (TodoItem.id <$> (l1 ++ x :: l2)) →
  JsArray.find (λ y, TodoItem.id y = TodoItem.id x) (l1 ++ x :: l2)
  = Some (length l1, x).
Proof.
  intros Hnodup. rewrite fmap_app, fmap_cons in Hnodup.
  apply NoDup_app in Hnodup as (_ & Hl1 & _).
  apply list_find_Some. split_and!.
  - by apply list_lookup_middle.
  - done.
  - intros j y Hj Hlt Heq. rewrite lookup_app_l in Hj by done.
    apply (Hl1 (TodoItem.id y)).
    + apply list_elem_of_fmap. exists y. split; [done|]. by eapply list_elem_of_lookup_2.
    + rewrite Heq. left.
Qed.

Lemma selectors_app (l1 l2 : list TodoItem.t) :
  activeTasks (l1 ++ l2) = activeTasks l1 ++ activeTasks l2
  ∧ finishedTasks (l1 ++ l2) = finishedTasks l1 ++ finishedTasks l2.
Proof. unfold activeTasks, finishedTasks. by rewrite !filter_app_loop. Qed.

Lemma selectors_cons (y : TodoItem.t) (l : list TodoItem.t) :
  activeTasks (y :: l) = (if TodoItem.done y then [] else [y]) ++ activeTasks l
  ∧ finishedTasks (y :: l) = (if TodoItem.done y then [y] else []) ++ finishedTasks l.
Proof.
  destruct (selectors_app [y] l) as [Hactive Hfinished].
  change ([y] ++ l) with (y :: l) in Hactive, Hfinished.
  rewrite Hactive, Hfinished.
  unfold activeTasks, finishedTasks, JsArray.filter; simpl.
  by destruct (TodoItem.done y).
Qed.

(** X5: with pairwise distinct ids, the Done and the Undo button move the
    row they are on and no other: [toggleTodo] of an entry's id replaces
    that entry, in place, by the same entry with [done] negated; an
    unfinished entry leaves the active selection, which gets one shorter,
    and enters the finished one, which gets one longer, and the other way
    round for a finished entry. *)
Theorem toggleTodo_moves_entry (s : TodosState.t) (x : TodoItem.t) :
  NoDup (ids s) → x ∈ TodosState.items s →
  ∃ l1 l2,
    TodosState.items s = l1 ++ x :: l2
    ∧ TodosState.items (todosSlice.toggleTodo s (TodoItem.id x))
      = l1 ++ TodoItem.flip_done x :: l2
    ∧ (TodoItem.done x = false →
         activeTasks (TodosState.items s) = activeTasks l1 ++ x :: activeTasks l2
         ∧ activeTasks (TodosState.items (todosSlice.toggleTodo s (TodoItem.id x)))
           = activeTasks l1 ++ activeTasks l2
         ∧ finishedTasks (TodosState.items (todosSlice.toggleTodo s (TodoItem.id x)))
           = finishedTasks l1 ++ TodoItem.flip_done x :: finishedTasks l2
         ∧ finishedTasks (TodosState.items s) = finishedTasks l1 ++ finishedTasks l2)
    ∧ (TodoItem.done x = true →
         finishedTasks (TodosState.items s) = finishedTasks l1 ++ x :: finishedTasks l2
         ∧ finishedTasks (TodosState.items (todosSlice.toggleTodo s (TodoItem.id x)))
           = finishedTasks l1 ++ finishedTasks l2
         ∧ activeTasks (TodosState.items (todosSlice.toggleTodo s (TodoItem.id x)))
           = activeTasks l1 ++ TodoItem.flip_done x :: activeTasks l2
         ∧ activeTasks (TodosState.items s) = activeTasks l1 ++ activeTasks l2).
Proof.
  intros Hnodup Hx. destruct (list_elem_of_split _ _ Hx) as (l1 & l2 & Hsplit).
  exists l1, l2. unfold ids in Hnodup. rewrite Hsplit in Hnodup.
  pose proof (find_unique l1 l2 x Hnodup) as Hfind. rewrite <-Hsplit in Hfind.
  destruct (toggleTodo_found s _ _ _ Hfind) as (_ & _ & _ & Htoggle).
  rewrite Htoggle, Hsplit; simpl.
  replace (length l1) with (length l1 + 0) by lia. rewrite insert_app_r; simpl.
  split_and!; [done|done| |]; intros Hdone;
    rewrite !(proj1 (selectors_app l1 (_ :: l2))), !(proj2 (selectors_app l1 (_ :: l2)));
    rewrite !(proj1 (selectors_cons _ l2)), !(proj2 (selectors_cons _ l2));
    simpl; rewrite Hdone; simpl; by split_and!.
Qed.

(** Done on row a of the sample list: the list keeps its three rows. *)
Lemma toggleTodo_moves_entry_sample :
  ∃ l1 l2,
    TodosState.items Sample.abc = l1 ++ Sample.A :: l2
    ∧ TodosState.items (todosSlice.toggleTodo Sample.abc "a")
      = l1 ++ TodoItem.flip_done Sample.A :: l2.
Proof.
  assert (NoDup (ids Sample.abc)) as Hnodup.
  { simpl. repeat (apply NoDup_cons; split; [not_in_list|]). constructor. }
  assert (Sample.A ∈ TodosState.items Sample.abc) as Hin by in_list.
  destruct (toggleTodo_moves_entry Sample.abc Sample.A Hnodup Hin)
    as (l1 & l2 & Hsplit & Htoggle & _).
  by exists l1, l2.
Defined.

(** A toggle does not move what [find] returns for another id. *)
Lemma find_toggle_other (s : TodosState.t) (a b : string) :
  a ≠ b →
  JsArray.find (λ x, TodoItem.id x = b) (TodosState.items (todosSlice.toggleTodo s a))
  = JsArray.find (λ x, TodoItem.id x = b) (TodosState.items s).
Proof.
  intros Hne.
  destruct (JsArray.find (λ x, TodoItem.id x = a) (TodosState.items s))
    as [[ia ta]|] eqn:Ha; [|unfold todosSlice.toggleTodo; by rewrite Ha].
  destruct (toggleTodo_found s a ia ta Ha) as (Hia & Hida & _ & ->); simpl.
  destruct (JsArray.find (λ x, TodoItem.id x = b) (TodosState.items s))
    as [[ib tb]|] eqn:Hb.
  - apply list_find_Some in Hb as (Hib & Hidb & Hfirst).
    assert (ia ≠ ib) as Hidx by (intros ->; congruence).
    apply list_find_Some. split_and!.
    + by rewrite list_lookup_insert_ne.
    + done.
    + intros j y Hj Hlt. destruct (decide (ia = j)) as [->|Hj'].
      * rewrite list_lookup_insert_eq in Hj by (by eapply lookup_lt_Some).
        injection Hj as <-. simpl. congruence.
      * rewrite list_lookup_insert_ne in Hj by done. by eapply Hfirst.
  - apply list_find_None. apply list_find_None in Hb.
    apply Forall_insert; [done|]. simpl. congruence.
Qed.

(** X6: toggles of two ids commute, whatever the list (an id that no entry
    carries, or one that several carry, included). *)
Theorem toggleTodo_commutes (s : TodosState.t) (a b : string) :
  todosSlice.toggleTodo (todosSlice.toggleTodo s a) b
  = todosSlice.toggleTodo (todosSlice.toggleTodo s b) a.
Proof.
  destruct (decide (a = b)) as [->|Hne]; [done|].
  assert (b ≠ a) as Hne' by done.
  pose proof (find_toggle_other s a b Hne) as Hb.
  pose proof (find_toggle_other s b a Hne') as Ha.
  unfold todosSlice.toggleTodo at 1 3. rewrite Ha, Hb.
  destruct (JsArray.find (λ x, TodoItem.id x = a) (TodosState.items s))
    as [[ia ta]|] eqn:Hfa;
    destruct (JsArray.find (λ x, TodoItem.id x = b) (TodosState.items s))
      as [[ib tb]|] eqn:Hfb;
    unfold todosSlice.toggleTodo; rewrite ?Hfa, ?Hfb; simpl; try done.
  f_equal. apply list_insert_insert_ne.
  apply list_find_Some in Hfa as (Hia & Hida & _).
  apply list_find_Some in Hfb as (Hib & Hidb & _).
  intros ->. congruence.
Qed.

(** ** More on the store *)

(** X7: no action changes both slices.  Whatever is dispatched, with a
    known type or not, a dispatch that returns leaves the [ui] slice or the
    [todos] slice exactly as it was: the other slice is untouched by an
    action of a type the first one registers. *)
Theorem dispatch_touches_one_slice (state state' : RootState.t) (a : Action) :
  dispatch state a = Next state' →
  (RootState.ui state' = RootState.ui state
   ∨ RootState.todos state' = RootState.todos state)
  ∧ (∀ ty, type a = Some ty → ty ∈ handledTypes uiSlice.slice →
       RootState.todos state' = RootState.todos state)
  ∧ (∀ ty, type a = Some ty → ty ∈ handledTypes todosSlice.slice →
       RootState.ui state' = RootState.ui state).
Proof.
  destruct a as [[ty|] p]; unfold dispatch, rootReducer; simpl; [|done].
  intros Hdispatch.
  assert (ty ∈ handledTypes uiSlice.slice →
          RootState.todos state' = RootState.todos state) as Hui.
  { intros Hin. apply handledTypes_disjoint in Hin.
    rewrite (sliceReducer_unhandled todosSlice.slice) in Hdispatch by done.
    destruct (sliceReducer uiSlice.slice _ _ _); simpl in Hdispatch; [|done|done].
    by injection Hdispatch as <-. }
  assert (ty ∉ handledTypes uiSlice.slice →
          RootState.ui state' = RootState.ui state) as Hnotui.
  { intros Hout.
    rewrite (sliceReducer_unhandled uiSlice.slice) in Hdispatch by done.
    simpl in Hdispatch.
    destruct (sliceReducer todosSlice.slice _ _ _); simpl in Hdispatch; [|done|done].
    by injection Hdispatch as <-. }
  split_and!.
  - destruct (decide (ty ∈ handledTypes uiSlice.slice)); [right|left]; auto.
  - intros ty' [= <-]. exact Hui.
  - intros ty' [= <-] Hin. apply Hnotui. intros Hin'.
    by apply (handledTypes_disjoint ty).
Qed.

(** Showing a banner on the initial store leaves the list alone. *)
Lemma dispatch_touches_one_slice_sample :
  RootState.todos
    (RootState.mk (uiSlice.showBanner UiState.initialState "Saved")
       TodosState.initialState)
  = RootState.todos RootState.initialState.
Proof.
  refine (proj1 (proj2 (dispatch_touches_one_slice RootState.initialState _
                          (actions.showBanner "Saved") _)) "ui/showBanner" _ _).
  - reflexivity.
  - reflexivity.
  - in_list.
Defined.

(** X8: a dispatch to the [ui] slice and a dispatch to the [todos] slice
    commute: in either order the two leave the same store and the same
    count of ids and clock readings drawn. *)
Theorem ui_and_todos_commute (env : Env) (w : World) (state : RootState.t)
    (i j : Intent) :
  forUi i = true → forUi j = false →
  run env w state [i; j] = run env w state [j; i].
Proof. destruct i, j; intros Hi Hj; try discriminate Hi; try discriminate Hj; reflexivity. Qed.

(** The switch and then a new entry, or the new entry and then the switch. *)
Lemma ui_and_todos_commute_sample :
  run Sample.env Sample.world RootState.initialState
    [DoToggleDarkMode; DoAddTodo "Buy milk"]
  = run Sample.env Sample.world RootState.initialState
      [DoAddTodo "Buy milk"; DoToggleDarkMode].
Proof.
  apply (ui_and_todos_commute Sample.env Sample.world RootState.initialState
           DoToggleDarkMode (DoAddTodo "Buy milk")); reflexivity.
Defined.

(** X9: only [addTodo] lengthens the list and only [addTodo] reads the
    generator and the clock.  After any sequence of dispatches of the view
    the list has grown by at most the number of [addTodo] among them, one
    id was drawn for each and the clock was read twice for each. *)
Theorem items_grow_only_by_addTodo (env : Env) (intents : list Intent) :
  ∀ w state, ∃ w' state',
    run env w state intents = (w', Next state')
    ∧ length (TodosState.items (RootState.todos state'))
      ≤ length (TodosState.items (RootState.todos state)) + addCount intents
    ∧ ids_drawn w' = ids_drawn w + addCount intents
    ∧ clock_reads w' = clock_reads w + 2 * addCount intents.
Proof.
  unfold addCount. induction intents as [|i rest IH]; intros w state.
  - exists w, state. simpl. split_and!; [done|lia..].
  - cbn [run]. rewrite perform_spec.
    assert (∀ p, length (JsArray.filter p (TodosState.items (RootState.todos state)))
                 ≤ length (TodosState.items (RootState.todos state))) as Hfilter
      by (intros p; apply sublist_length, filter_sublist).
    destruct i; simpl;
      match goal with
      | |- context [run env ?w1 ?s1 rest] =>
          destruct (IH w1 s1) as (w' & state' & Hrun & Hlen & Hids & Hclock)
      end;
      exists w', state'; (split; [exact Hrun|]); simpl in *.
    + split_and!; lia.
    + split_and!; lia.
    + split_and!; lia.
    + split_and!; lia.
    + assert (length (TodosState.items (todosSlice.toggleTodo (RootState.todos state) id))
              = length (TodosState.items (RootState.todos state))) as Htoggle.
      { rewrite <-(length_fmap TodoItem.id).
        fold (ids (todosSlice.toggleTodo (RootState.todos state) id)).
        rewrite ids_toggleTodo. unfold ids. by rewrite length_fmap. }
      split_and!; lia.
    + specialize (Hfilter (λ x, bool_decide (TodoItem.id x ≠ id))). split_and!; lia.
    + specialize (Hfilter (λ item, TodoItem.done item)). split_and!; lia.
Qed.

(** ** Creation times *)

(** A toggle changes no field but [done]. *)
Lemma fmap_toggleTodo {B : Type} (f : TodoItem.t → B) (s : TodosState.t) (id : string) :
  (∀ t, f (TodoItem.flip_done t) = f t) →
  f <$> TodosState.items (todosSlice.toggleTodo s id) = f <$> TodosState.items s.
Proof.
  intros Hf.
  destruct (JsArray.find (λ x, TodoItem.id x = id) (TodosState.items s))
    as [[i t]|] eqn:Hfind.
  - destruct (toggleTodo_found s id i t Hfind) as (Hi & _ & _ & ->); simpl.
    rewrite list_fmap_insert, Hf. apply list_insert_id. by rewrite list_lookup_fmap, Hi.
  - unfold todosSlice.toggleTodo. by rewrite Hfind.
Qed.

Lemma StronglySorted_sublist {A : Type} (R : relation A) (l1 l2 : list A) :
  l1 `sublist_of` l2 → StronglySorted R l2 → StronglySorted R l1.
Proof.
  induction 1 as [|x l1 l2 Hsub IH|x l1 l2 Hsub IH]; intros Hsorted; [done| |].
  - apply StronglySorted_cons in Hsorted as [Hall Hsorted].
    apply StronglySorted_cons. split; [|by apply IH].
    apply Forall_forall. intros y Hy. eapply Forall_forall; [exact Hall|].
    by apply (sublist_subseteq _ _ Hsub).
  - apply StronglySorted_cons in Hsorted as [_ Hsorted]. by apply IH.
Qed.

Lemma StronglySorted_lookup {A : Type} (R : relation A) (l : list A) :
  StronglySorted R l →
  ∀ i j a b, i < j → l !! i = Some a → l !! j = Some b → R a b.
Proof.
  induction 1 as [|x l Hsorted IH Hall]; intros i j a b Hlt Hi Hj; [done|].
  destruct j as [|j]; [lia|]. simpl in Hj. destruct i as [|i]; simpl in Hi.
  - injection Hi as <-. eapply Forall_forall; [exact Hall|].
    by eapply list_elem_of_lookup_2.
  - apply (IH i j); [lia|done|done].
Qed.

Lemma newest_first_step (env : Env) (w w' : World) (state state' : RootState.t)
    (i : Intent) :
  monotone_clock env →
  newestFirst (RootState.todos state) ∧ stampedBefore env w (RootState.todos state) →
  perform env w state i = (w', Next state') →
  newestFirst (RootState.todos state') ∧ stampedBefore env w' (RootState.todos state').
Proof.
  intros Hmono [Hsorted Hstamped]. rewrite perform_spec.
  unfold newestFirst, stampedBefore in *.
  assert (∀ p, (TodoItem.createdAt <$>
                  JsArray.filter p (TodosState.items (RootState.todos state)))
               `sublist_of` (TodoItem.createdAt <$> TodosState.items (RootState.todos state)))
    as Hsub by (intros p; apply fmap_sublist, filter_sublist).
  destruct i; intros [= <- <-]; simpl; try done.
  - (* addTodo *)
    split.
    + apply StronglySorted_cons. split; [|done].
      apply Forall_forall. intros t (k & Hk & ->)%Hstamped. apply Hmono. lia.
    + intros t [->|Hin]%elem_of_cons.
      * exists (S (clock_reads w)). split; [lia|done].
      * destruct (Hstamped t Hin) as (k & Hk & ->). exists k. split; [lia|done].
  - (* toggleTodo *)
    by rewrite fmap_toggleTodo.
  - (* removeTodo *)
    split; [eapply StronglySorted_sublist; [apply Hsub|done]|].
    intros t Hin. apply Hstamped. exact (sublist_subseteq _ _ (Hsub _) t Hin).
  - (* clearTodos *)
    split; [eapply StronglySorted_sublist; [apply Hsub|done]|].
    intros t Hin. apply Hstamped. exact (sublist_subseteq _ _ (Hsub _) t Hin).
Qed.

Lemma sample_clock_monotone : monotone_clock Sample.env.
Proof. intros i j Hle. simpl. lia. Qed.

(** X10: when the clock never runs backwards, the list is newest first by
    [createdAt] after any sequence of dispatches from the initial store: an
    entry further down the list was not created later than one above it. *)
Theorem items_newest_first (env : Env) (w : World) (intents : list Intent) :
  monotone_clock env →
  ∃ w' state,
    run env w RootState.initialState intents = (w', Next state)
    ∧ ∀ i j x y, i < j →
        TodosState.items (RootState.todos state) !! i = Some x →
        TodosState.items (RootState.todos state) !! j = Some y →
        (TodoItem.createdAt y ≤ TodoItem.createdAt x)%Z.
Proof.
  intros Hmono.
  destruct (run_invariant env
              (λ w state, newestFirst (RootState.todos state)
                          ∧ stampedBefore env w (RootState.todos state))
              (λ w0 st i w1 st1 HI Hp, newest_first_step env w0 w1 st st1 i Hmono HI Hp)
              intents w RootState.initialState)
    as (w' & state & Hrun & Hsorted & _).
  { split; [constructor|]. intros t Hin. by apply elem_of_nil in Hin. }
  exists w', state. split; [done|]. intros i j x y Hlt Hi Hj.
  apply (StronglySorted_lookup _ _ Hsorted i j); [done| |];
    rewrite list_lookup_fmap; [by rewrite Hi|by rewrite Hj].
Qed.

(** Three entries, one toggled, one removed, with the sample clock. *)
Lemma items_newest_first_sample :
  ∃ w' state,
    run Sample.env Sample.world RootState.initialState
      [DoAddTodo "Buy milk"; DoAddTodo "Call home"; DoToggleTodo "0";
       DoAddTodo "Pay rent"; DoRemoveTodo "1"]
    = (w', Next state)
    ∧ ∀ i j x y, i < j →
        TodosState.items (RootState.todos state) !! i = Some x →
        TodosState.items (RootState.todos state) !! j = Some y →
        (TodoItem.createdAt y ≤ TodoItem.createdAt x)%Z.
Proof.
  exact (items_newest_first Sample.env Sample.world
           [DoAddTodo "Buy milk"; DoAddTodo "Call home"; DoToggleTodo "0";
            DoAddTodo "Pay rent"; DoRemoveTodo "1"]
           sample_clock_monotone).
Defined.

(** X11: a toggle with the id of the entry just added always hits that
    entry, whatever ids the older entries carry: after [addTodo(title)] and
    [toggleTodo] of the id it drew, the new entry is at the head with [done]
    true and the older entries are as they were, so it shows among the
    finished rows and not among the active ones. *)
Theorem toggle_after_add_hits_new_entry (env : Env) (w : World) (state : RootState.t)
    (title : string) :
  run env w state [DoAddTodo title; DoToggleTodo (nanoid env (ids_drawn w))]
  = ((todosSlice.prepare env w title).1,
     Next (RootState.mk (RootState.ui state)
             (TodosState.mk
                (TodoItem.flip_done (todosSlice.prepare env w title).2
                 :: TodosState.items (RootState.todos state)))))
  ∧ TodoItem.done (TodoItem.flip_done (todosSlice.prepare env w title).2) = true
  ∧ TodoItem.title (TodoItem.flip_done (todosSlice.prepare env w title).2) = title
  ∧ TodoItem.flip_done (todosSlice.prepare env w title).2
    ∈ finishedTasks (TodoItem.flip_done (todosSlice.prepare env w title).2
                     :: TodosState.items (RootState.todos state))
  ∧ (TodoItem.flip_done (todosSlice.prepare env w title).2
     ∉ activeTasks (TodoItem.flip_done (todosSlice.prepare env w title).2
                    :: TodosState.items (RootState.todos state))).
Proof.
  split_and!.
  - cbn [run]. rewrite !perform_spec. cbn [snd fst].
    unfold todosSlice.toggleTodo, todosSlice.addTodo, JsArray.find, JsArray.unshift.
    cbn [TodosState.items RootState.todos list_find todosSlice.prepare snd TodoItem.id].
    rewrite decide_True by done. reflexivity.
  - reflexivity.
  - reflexivity.
  - apply filter_elem_of. split; [left|done].
  - intros [_ Hdone]%filter_elem_of. discriminate Hdone.
Qed.

(** ** The event handlers *)

Lemma handle_spec (trim : string → string) (env : Env) (w : World) (app : view.t)
    (e : view.Event) :
  view.handle trim env w app e =
  match e with
  | view.ChangeText value => (w, Next (view.mk (view.store app) value))
  | view.PressAdd =>
      if decide (trim (view.text app) = "") then (w, Next app)
      else
        ((todosSlice.prepare env w (trim (view.text app))).1,
         Next (view.mk
                 (RootState.mk
                    (uiSlice.showBanner (RootState.ui (view.store app)) view.addedMessage)
                    (todosSlice.addTodo (RootState.todos (view.store app))
                       (todosSlice.prepare env w (trim (view.text app))).2))
                 ""))
  | view.PressDone item | view.PressUndo item =>
      (w, Next (view.mk
                  (RootState.mk (RootState.ui (view.store app))
                     (todosSlice.toggleTodo (RootState.todos (view.store app))
                        (TodoItem.id item)))
                  (view.text app)))
  | view.PressClearAll =>
      (w, Next (view.mk
                  (RootState.mk (RootState.ui (view.store app))
                     (todosSlice.clearTodos (RootState.todos (view.store app))))
                  (view.text app)))
  | view.PressRemove item =>
      (w, Next (view.mk
                  (RootState.mk (RootState.ui (view.store app))
                     (todosSlice.removeTodo (RootState.todos (view.store app))
                        (TodoItem.id item)))
                  (view.text app)))
  | view.PressGotIt =>
      (w, Next (view.mk
                  (RootState.mk (uiSlice.dismissBanner (RootState.ui (view.store app)))
                     (RootState.todos (view.store app)))
                  (view.text app)))
  | view.SwitchDarkMode =>
      (w, Next (view.mk
                  (RootState.mk (uiSlice.toggleDarkMode (RootState.ui (view.store app)))
                     (RootState.todos (view.store app)))
                  (view.text app)))
  end.
Proof.
  destruct e; simpl; [reflexivity| |reflexivity..].
  unfold view.onPressAdd. case_decide; reflexivity.
Qed.

Lemma handle_returns (trim : string → string) (env : Env) (w : World) (app : view.t)
    (e : view.Event) :
  ∃ w' app', view.handle trim env w app e = (w', Next app').
Proof. rewrite handle_spec. destruct e; try case_decide; eauto. Qed.

(** A property every handler keeps holds after any sequence of events, and
    no handler throws on the way. *)
Lemma handleAll_invariant (trim : string → string) (env : Env)
    (I : World → view.t → Prop) :
  (∀ w app e w' app',
      I w app → view.handle trim env w app e = (w', Next app') → I w' app') →
  ∀ events w app, I w app →
    ∃ w' app', view.handleAll trim env w app events = (w', Next app') ∧ I w' app'.
Proof.
  intros Hstep events. induction events as [|e rest IH]; intros w app HI; simpl.
  - by exists w, app.
  - destruct (handle_returns trim env w app e) as (w1 & app1 & Hhandle).
    rewrite Hhandle. apply IH. by eapply Hstep.
Qed.

(** X12: the Add button.  With a text that trims to nothing the press does
    nothing: no dispatch, the store and the text field stay, no id is drawn.
    Otherwise one entry with the trimmed text as title and [done] false is
    put in front of the list, the banner is shown with the fixed message,
    the theme is kept, and the text field is emptied. *)
Theorem add_button (trim : string → string) (env : Env) (w : World) (app : view.t) :
  (trim (view.text app) = "" → view.handle trim env w app view.PressAdd = (w, Next app))
  ∧ (trim (view.text app) ≠ "" →
       ∃ w' item,
         view.handle trim env w app view.PressAdd
         = (w', Next (view.mk
                        (RootState.mk
                           (UiState.mk
                              (UiState.darkMode (RootState.ui (view.store app)))
                              true view.addedMessage)
                           (TodosState.mk
                              (item :: TodosState.items (RootState.todos (view.store app)))))
                        ""))
         ∧ TodoItem.title item = trim (view.text app)
         ∧ TodoItem.done item = false
         ∧ TodoItem.id item = nanoid env (ids_drawn w)
         ∧ ids_drawn w' = S (ids_drawn w)).
Proof.
  rewrite handle_spec. split; intros Htext.
  - by rewrite decide_True.
  - rewrite decide_False by done.
    exists (todosSlice.prepare env w (trim (view.text app))).1,
           (todosSlice.prepare env w (trim (view.text app))).2.
    by split_and!.
Qed.

(** Blanks only: nothing happens.  A padded title: it is added trimmed. *)
Lemma add_button_sample :
  view.handle sampleTrim Sample.env Sample.world
    (view.mk RootState.initialState "   ") view.PressAdd
  = (Sample.world, Next (view.mk RootState.initialState "   "))
  ∧ ∃ w' item,
      view.handle sampleTrim Sample.env Sample.world
        (view.mk RootState.initialState "  Buy milk ") view.PressAdd
      = (w', Next (view.mk
                     (RootState.mk (UiState.mk false true view.addedMessage)
                        (TodosState.mk [item]))
                     ""))
      ∧ TodoItem.title item = "Buy milk".
Proof.
  split.
  - apply (add_button sampleTrim Sample.env Sample.world
             (view.mk RootState.initialState "   ")). reflexivity.
  - destruct (proj2 (add_button sampleTrim Sample.env Sample.world
                       (view.mk RootState.initialState "  Buy milk ")))
      as (w' & item & Hhandle & Htitle & _); [discriminate|].
    exists w', item. split; [exact Hhandle|exact Htitle].
Defined.

(** X13: through the handlers no entry with an empty title gets into the
    list, although the store would take one: after any sequence of events
    from the initial screen, no handler has thrown and every title in the
    list is non-empty and is the trimmed form of some text. *)
Theorem titles_never_empty (trim : string → string) (env : Env) (w : World)
    (events : list view.Event) :
  ∃ w' app,
    view.handleAll trim env w view.initial events = (w', Next app)
    ∧ ∀ x, x ∈ TodosState.items (RootState.todos (view.store app)) →
        TodoItem.title x ≠ "" ∧ ∃ text, TodoItem.title x = trim text.
Proof.
  destruct (handleAll_invariant trim env
              (λ _ app, ∀ t, t ∈ TodoItem.title <$>
                                 TodosState.items (RootState.todos (view.store app)) →
                             t ≠ "" ∧ ∃ text, t = trim text)
              ) with (events := events) (w := w) (app := view.initial)
    as (w' & app & Hrun & Hinv).
  - intros w0 app0 e w1 app1 HI. rewrite handle_spec.
    assert (∀ p t, t ∈ TodoItem.title <$>
                     JsArray.filter p (TodosState.items (RootState.todos (view.store app0))) →
                   t ≠ "" ∧ ∃ text, t = trim text) as Hfilter.
    { intros p t Hin. apply HI.
      exact (sublist_subseteq _ _ (fmap_sublist _ _ _ (filter_sublist p _)) t Hin). }
    destruct e; try case_decide; intros [= <- <-]; simpl; try done.
    + intros t [->|Hin]%elem_of_cons; [|by apply HI]. split; [done|by eexists].
    + by rewrite fmap_toggleTodo.
    + apply Hfilter.
    + by rewrite fmap_toggleTodo.
    + apply Hfilter.
  - intros t Hin. by apply elem_of_nil in Hin.
  - exists w', app. split; [done|]. intros x Hx. apply Hinv.
    by apply list_elem_of_fmap_2.
Qed.

(** X14: the theme depends on the switch alone: after any sequence of
    events the dark mode flag is the flag before, flipped once per press of
    the switch; no other handler changes it. *)
Theorem theme_follows_switch (trim : string → string) (env : Env)
    (events : list view.Event) :
  ∀ w app, ∃ w' app',
    view.handleAll trim env w app events = (w', Next app')
    ∧ UiState.darkMode (RootState.ui (view.store app'))
      = xorb (UiState.darkMode (RootState.ui (view.store app)))
             (Nat.odd (switchCount events)).
Proof.
  unfold switchCount. induction events as [|e rest IH]; intros w app.
  - exists w, app. split; [done|]. simpl. by rewrite xorb_false_r.
  - cbn [view.handleAll]. rewrite handle_spec.
    destruct e; try case_decide;
      match goal with
      | |- context [view.handleAll trim env ?w1 ?app1 rest] =>
          destruct (IH w1 app1) as (w' & app' & Hrun & Hdark)
      end;
      exists w', app'; (split; [exact Hrun|]); rewrite Hdark; simpl; try done.
    rewrite Nat.odd_succ, <-Nat.negb_odd.
    generalize (UiState.darkMode (RootState.ui (view.store app))).
    generalize (Nat.odd (length (List.filter
      (λ e, match e with view.SwitchDarkMode => true | _ => false end) rest))).
    by intros [] [].
Qed.

(** X15: the Remove button is on finished rows only, and with pairwise
    distinct ids a press on it takes out the row it is on and nothing else:
    the active rows, the theme, the banner and the text field stay, and the
    finished rows lose exactly that entry. *)
Theorem remove_button_keeps_active (trim : string → string) (env : Env) (w : World)
    (app : view.t) (item : TodoItem.t) :
  NoDup (ids (RootState.todos (view.store app))) →
  view.offered app (view.PressRemove item) →
  ∃ app' l1 l2,
    view.handle trim env w app (view.PressRemove item) = (w, Next app')
    ∧ view.text app' = view.text app
    ∧ RootState.ui (view.store app') = RootState.ui (view.store app)
    ∧ TodosState.items (RootState.todos (view.store app)) = l1 ++ item :: l2
    ∧ TodosState.items (RootState.todos (view.store app')) = l1 ++ l2
    ∧ activeTasks (TodosState.items (RootState.todos (view.store app')))
      = activeTasks (TodosState.items (RootState.todos (view.store app)))
    ∧ finishedTasks (TodosState.items (RootState.todos (view.store app)))
      = finishedTasks l1 ++ item :: finishedTasks l2
    ∧ finishedTasks (TodosState.items (RootState.todos (view.store app')))
      = finishedTasks l1 ++ finishedTasks l2.
Proof.
  intros Hnodup Hoffered. simpl in Hoffered.
  apply filter_elem_of in Hoffered as [Hin Hdone].
  destruct (list_elem_of_split _ _ Hin) as (l1 & l2 & Hsplit).
  unfold ids in Hnodup. rewrite Hsplit in Hnodup.
  rewrite handle_spec. eexists _, l1, l2. split; [reflexivity|]. simpl.
  unfold todosSlice.removeTodo; simpl. rewrite Hsplit, removeTodo_at by done.
  rewrite !(proj1 (selectors_app l1 _)), !(proj2 (selectors_app l1 _)).
  rewrite (proj1 (selectors_cons item l2)), (proj2 (selectors_cons item l2)), Hdone.
  by split_and!.
Qed.

(** Remove on the finished row b of the sample list. *)
Lemma remove_button_keeps_active_sample :
  ∃ app' l1 l2,
    view.handle sampleTrim Sample.env Sample.world
      (view.mk (RootState.mk UiState.initialState Sample.abc) "")
      (view.PressRemove Sample.B)
    = (Sample.world, Next app')
    ∧ TodosState.items Sample.abc = l1 ++ Sample.B :: l2
    ∧ TodosState.items (RootState.todos (view.store app')) = l1 ++ l2.
Proof.
  assert (NoDup (ids Sample.abc)) as Hnodup.
  { simpl. repeat (apply NoDup_cons; split; [not_in_list|]). constructor. }
  assert (view.offered (view.mk (RootState.mk UiState.initialState Sample.abc) "")
            (view.PressRemove Sample.B)) as Hoffered.
  { simpl. apply filter_elem_of. split; [in_list|done]. }
  destruct (remove_button_keeps_active sampleTrim Sample.env Sample.world
              (view.mk (RootState.mk UiState.initialState Sample.abc) "")
              Sample.B Hnodup Hoffered)
    as (app' & l1 & l2 & Hhandle & _ & _ & Hsplit & Hitems & _).
  by exists app', l1, l2.
Defined.

(** ** Events as dispatches *)

Lemma run_app (env : Env) (l1 l2 : list Intent) :
  ∀ w state w1 state1,
    run env w state l1 = (w1, Next state1) →
    run env w state (l1 ++ l2) = run env w1 state1 l2.
Proof.
  induction l1 as [|i l1 IH]; intros w state w1 state1; simpl.
  - by intros [= <- <-].
  - destruct (perform_returns env w state i) as (w0 & state0 & Hperform).
    rewrite Hperform. apply IH.
Qed.

(** The dispatches one handler makes. *)
Lemma handle_as_run (trim : string → string) (env : Env) (w : World) (app : view.t)
    (e : view.Event) :
  ∃ intents w' app',
    view.handle trim env w app e = (w', Next app')
    ∧ run env w (view.store app) intents = (w', Next (view.store app'))
    ∧ length intents ≤ 2.
Proof.
  rewrite handle_spec. destruct e.
  - exists []. eexists _, _. split; [reflexivity|]. split; [reflexivity|simpl; lia].
  - case_decide.
    + exists []. eexists _, _. split; [reflexivity|]. split; [reflexivity|simpl; lia].
    + exists [DoAddTodo (trim (view.text app)); DoShowBanner view.addedMessage].
      eexists _, _. split; [reflexivity|]. split; [reflexivity|simpl; lia].
  - exists [DoToggleTodo (TodoItem.id item)].
    eexists _, _. split; [reflexivity|]. split; [reflexivity|simpl; lia].
  - exists [DoClearTodos].
    eexists _, _. split; [reflexivity|]. split; [reflexivity|simpl; lia].
  - exists [DoToggleTodo (TodoItem.id item)].
    eexists _, _. split; [reflexivity|]. split; [reflexivity|simpl; lia].
  - exists [DoRemoveTodo (TodoItem.id item)].
    eexists _, _. split; [reflexivity|]. split; [reflexivity|simpl; lia].
  - exists [DoDismissBanner].
    eexists _, _. split; [reflexivity|]. split; [reflexivity|simpl; lia].
  - exists [DoToggleDarkMode].
    eexists _, _. split; [reflexivity|]. split; [reflexivity|simpl; lia].
Qed.

Lemma handleAll_as_run (trim : string → string) (env : Env) (events : list view.Event) :
  ∀ w app, ∃ intents w' app',
    view.handleAll trim env w app events = (w', Next app')
    ∧ run env w (view.store app) intents = (w', Next (view.store app'))
    ∧ length intents ≤ 2 * length events.
Proof.
  induction events as [|e rest IH]; intros w app.
  - exists [], w, app. split; [done|]. split; [done|simpl; lia].
  - destruct (handle_as_run trim env w app e) as (l1 & w1 & app1 & Hhandle & Hrun1 & Hlen1).
    destruct (IH w1 app1) as (l2 & w' & app' & Hall & Hrun2 & Hlen2).
    exists (l1 ++ l2), w', app'. cbn [view.handleAll]. rewrite Hhandle.
    split; [exact Hall|]. split.
    + by rewrite (run_app env l1 l2 w (view.store app) w1 (view.store app1)).
    + rewrite length_app. simpl. lia.
Qed.

(** X16: the screen reaches only what the store reaches.  Any sequence of
    events is handled to its end without a throw and leaves the store that
    some sequence of dispatches, at most two per event, leaves.  Hence
    from the initial screen a hidden banner always has an empty message,
    and when the generator does not repeat itself the ids of the rows are
    pairwise distinct, so that each row button acts on its own row. *)
Theorem events_are_dispatches (trim : string → string) (env : Env) (w : World)
    (events : list view.Event) :
  (∀ app, ∃ intents w' app',
      view.handleAll trim env w app events = (w', Next app')
      ∧ run env w (view.store app) intents = (w', Next (view.store app'))
      ∧ length intents ≤ 2 * length events)
  ∧ (∃ w' app',
      view.handleAll trim env w view.initial events = (w', Next app')
      ∧ bannerInvariant (RootState.ui (view.store app'))
      ∧ (fresh_ids env → NoDup (ids (RootState.todos (view.store app'))))).
Proof.
  split; [intros app; apply handleAll_as_run|].
  destruct (handleAll_as_run trim env events w view.initial)
    as (intents & w' & app' & Hall & Hrun & _).
  exists w', app'. split; [exact Hall|]. simpl in Hrun. split.
  - destruct (run_invariant env (λ _ state, uiReachable (RootState.ui state))
                (ui_reachable_step env) intents w RootState.initialState ui_initial)
      as (w2 & state2 & Hrun2 & Hreach).
    rewrite Hrun in Hrun2. injection Hrun2 as <- <-.
    clear Hrun Hall. induction Hreach as [|s _ IH|s message _ IH|s _ IH].
    + intros _. reflexivity.
    + by apply bannerInvariant_step.
    + by apply bannerInvariant_step.
    + by apply bannerInvariant_step.
  - intros Hfresh.
    destruct (run_invariant env
                (λ w state, NoDup (ids (RootState.todos state))
                            ∧ drawnBefore env w (RootState.todos state))
                (λ w0 st i w1 st1 HI Hp, distinct_ids_step env w0 w1 st st1 i Hfresh HI Hp)
                intents w RootState.initialState)
      as (w2 & state2 & Hrun2 & Hnodup & _).
    { split; [constructor|]. intros id Hin. by apply elem_of_nil in Hin. }
    rewrite Hrun in Hrun2. by injection Hrun2 as <- <-.
Qed.

(** Two entries typed and added, the first one done, in the sample
    environment: the two rows have different ids. *)
Lemma events_are_dispatches_sample :
  ∃ w' app',
    view.handleAll sampleTrim Sample.env Sample.world view.initial
      [view.ChangeText " Buy milk"; view.PressAdd; view.ChangeText "Call home";
       view.PressAdd; view.PressDone Sample.A]
    = (w', Next app')
    ∧ NoDup (ids (RootState.todos (view.store app'))).
Proof.
  destruct (proj2 (events_are_dispatches sampleTrim Sample.env Sample.world
                     [view.ChangeText " Buy milk"; view.PressAdd;
                      view.ChangeText "Call home"; view.PressAdd;
                      view.PressDone Sample.A]))
    as (w' & app' & Hall & _ & Hnodup).
  exists w', app'. split; [exact Hall|]. apply Hnodup, sample_env_fresh.
Defined.
